(** * WebCrawler: a model of [main.go] and the properties of its crawl

    The crawler of [main.go] is embedded as follows.

    - Go's [int] and [int64] are [Z] with the 64-bit wrap-around written
      out ([Int64.wrap]); [float64] is the IEEE binary64 format of
      [SpecFloat] (53 bits of precision, [emax = 1024]).
    - [c.visited], a [map[string]bool], is a [gmap string bool]; reading a
      missing key gives [false], as in Go.
    - The packages the program imports ([net/url], [strings], [net/http],
      [goquery]) are not part of the repository: they are the fields of
      the classes [GoLib] and [Web], and the crawler is written over any
      instance of them.  Module [Fixture] gives one instance, used to run
      the crawler on concrete sites.
    - Goroutines are entries of a task pool.  Each task is at a [Stage] of
      the body of [crawl]; [step] runs one task up to its next access to
      shared state (the visited map, the tick channel, the wait group, the
      page list), so that a schedule, a list of task numbers, determines a
      run.  Times read from [time.Now] come with the schedule. *)

From Stdlib Require Import ZArith String Ascii List Lia.
From Stdlib Require Import Floats.SpecFloat.
From stdpp Require Import gmap strings list.

Local Open Scope Z_scope.

(** ** Machine integers *)

Module Int64.

Definition min_int : Z := - 2 ^ 63.
Definition max_int : Z := 2 ^ 63 - 1.

(** Two's complement wrap-around of a 64-bit signed integer. *)
Definition wrap (z : Z) : Z := (z + 2 ^ 63) mod 2 ^ 64 - 2 ^ 63.

Definition in_range (z : Z) : Prop := min_int <= z <= max_int.

End Int64.

(** ** binary64 *)

Module Float64.

Definition prec : Z := 53.
Definition emax : Z := 1024.

Definition float64 : Set := spec_float.

(** An integer constant converted to [float64] (round to nearest even). *)
Definition of_Z (z : Z) : float64 := binary_normalize prec emax z 0 false.

Definition div (x y : float64) : float64 := SFdiv prec emax x y.

(** The integer part of a finite float, fraction discarded. *)
Definition trunc (f : float64) : option Z :=
  match f with
  | S754_zero _ => Some 0
  | S754_finite s m e =>
      let a := if 0 <=? e then Z.shiftl (Z.pos m) e
               else Z.shiftr (Z.pos m) (- e) in
      Some (if s then - a else a)
  | S754_infinity _ | S754_nan => None
  end.

(** The conversion [int64(f)].  The language leaves the result open when
    the value does not fit; the amd64 compiler gives the least integer. *)
Definition to_int64 (f : float64) : Z :=
  match trunc f with
  | Some z => if (Int64.min_int <=? z) && (z <=? Int64.max_int) then z
              else Int64.min_int
  | None => Int64.min_int
  end.

End Float64.

(** ** [time] *)

Module Time.

(** A [time.Duration] is an [int64] count of nanoseconds. *)
Definition Millisecond : Z := 1000000.

(** A [time.Time] is modelled by its Unix time in nanoseconds; [zero] is
    the zero value, January 1 of year 1. *)
Definition zero : Z := -62135596800 * 1000000000.

(** [time.Tick d]: a channel of ticks of period [d], or the nil channel
    when [d <= 0]. *)
Definition Tick (d : Z) : option Z := if d <=? 0 then None else Some d.

End Time.

(** The argument of [time.Tick] in [NewCrawler], line 55:
    [time.Duration(1000/requestsPerSecond) * time.Millisecond]. *)
Definition tick_duration (requestsPerSecond : Float64.float64) : Z :=
  Int64.wrap
    (Float64.to_int64 (Float64.div (Float64.of_Z 1000) requestsPerSecond)
     * Time.Millisecond).

(** ** The imported packages *)

(** What [goquery] gives for a parsed page: the [href] attribute of every
    [a] element in document order ([None] when the attribute is absent)
    and the text of [title]. *)
Record Document := {
  doc_anchors : list (option string);
  doc_title : string
}.

(** An [http.Response]: the status code and what
    [goquery.NewDocumentFromReader] makes of the body ([None]: it fails). *)
Record Response := {
  resp_StatusCode : Z;
  resp_Body : option Document
}.

(** The type [url.URL]. *)
Class UrlType := Url : Type.

(** [net/url] and [strings]. *)
Class GoLib `{UrlType} := {
  URL_Host : Url -> string;
  URL_IsAbs : Url -> bool;
  (** [url.Parse]: the error text or the parsed URL. *)
  neturl_Parse : string -> string + Url;
  (** [u.Parse(ref)]: [ref] resolved against [u]. *)
  URL_Parse : Url -> string -> option Url;
  URL_String : Url -> string;
  TrimSpace : string -> string
}.

(** The site being crawled: [http.Get] ([None]: a transport error) and the
    milliseconds a request takes.  The site does not change during a run:
    a URL gives the same answer each time it is requested. *)
Class Web := {
  http_Get : string -> option Response;
  latency : string -> Z
}.

(** ** Data of [main.go] *)

Record PageData := {
  URL : string;
  Title : string;
  Links : list string;
  Depth : Z;
  CrawledAt : Z;
  ResponseTime : Z;
  StatusCode : Z
}.

Record CrawlResult := {
  BaseURL : string;
  MaxDepth : Z;
  StartTime : Z;
  EndTime : Z;
  TotalPages : Z;
  Pages : list PageData
}.

Section Crawler.

Context `{lib : GoLib} `{web : Web}.

(** The two locks of the Go struct have no field here: they are what makes
    each of [isVisited], [markVisited] and [addPageData] one step. *)
Record Crawler := {
  visited : gmap string bool;
  baseURL : Url;
  maxDepth : Z;
  rateLimiter : option Z;
  result : CrawlResult
}.

Definition NewCrawler (base : string) (depthLimit : Z)
    (requestsPerSecond : Float64.float64) (now : Z) : string + Crawler :=
  match neturl_Parse base with
  | inl err => inl ("invalid base URL: " +:+ err)%string
  | inr parsedURL =>
      inr {| visited := ∅;
             baseURL := parsedURL;
             maxDepth := depthLimit;
             rateLimiter := Time.Tick (tick_duration requestsPerSecond);
             result := {| BaseURL := base;
                          MaxDepth := depthLimit;
                          StartTime := now;
                          EndTime := Time.zero;
                          TotalPages := 0;
                          Pages := [] |} |}
  end.

Definition isVisited (c : Crawler) (url : string) : bool :=
  default false (visited c !! url).

Definition markVisited (c : Crawler) (url : string) : Crawler :=
  {| visited := <[url := true]> (visited c);
     baseURL := baseURL c;
     maxDepth := maxDepth c;
     rateLimiter := rateLimiter c;
     result := result c |}.

Definition isSameDomain (c : Crawler) (pageURL : Url) : bool :=
  String.eqb (URL_Host pageURL) (URL_Host (baseURL c)).

Definition set_Pages (r : CrawlResult) (ps : list PageData) : CrawlResult :=
  {| BaseURL := BaseURL r; MaxDepth := MaxDepth r; StartTime := StartTime r;
     EndTime := EndTime r; TotalPages := TotalPages r; Pages := ps |}.

Definition set_result (c : Crawler) (r : CrawlResult) : Crawler :=
  {| visited := visited c; baseURL := baseURL c; maxDepth := maxDepth c;
     rateLimiter := rateLimiter c; result := r |}.

Definition addPageData (c : Crawler) (data : PageData) : Crawler :=
  set_result c (set_Pages (result c) (Pages (result c) ++ [data])).

(** The body of the function passed to [Each], lines 133 to 152, up to the
    point where a link is kept: the string appended to [links], or [None]
    when the anchor is skipped. *)
Definition link_target (c : Crawler) (parsedURL : Url)
    (anchor : option string) : option string :=
  match anchor with
  | None => None
  | Some raw =>
      let href := TrimSpace raw in
      if String.eqb href "" || String.prefix "#" href then None
      else match URL_Parse parsedURL href with
           | None => None
           | Some absoluteURL =>
               if negb (isSameDomain c absoluteURL) then None
               else Some (URL_String absoluteURL)
           end
  end.

(** ** Goroutines *)

(** Where a call of [crawl] stands.  [InLinks] is the loop of [Each]: the
    parsed page, the anchors not yet looked at and the links kept so far. *)
Inductive Stage :=
| AtEntry
| AtLimiter
| AtMark
| AtFetch
| InLinks (parsedURL : Url) (resp : Response) (doc : Document)
          (responseTime : Z) (pending : list (option string))
          (links : list string)
| Returned.

Record Task := {
  pageURL : string;
  depth : Z;
  stage : Stage
}.

Definition at_stage (t : Task) (st : Stage) : Task :=
  {| pageURL := pageURL t; depth := depth t; stage := st |}.

(** What a run leaves in its log; [g] is the number of the goroutine. *)
Inductive Event :=
| EvCheck (g : nat) (url : string) (seen : bool)
| EvTick (g : nat) (url : string)
| EvMark (g : nat) (url : string)
| EvGet (g : nat) (url : string)
| EvSpawn (g : nat) (url : string) (d : Z)
| EvStore (g : nat) (url : string).

Definition is_Returned (st : Stage) : bool :=
  match st with Returned => true | _ => false end.

(** One step of goroutine [g] running [crawl]: the crawler after it, the
    stage reached, the goroutines started and the events logged.  [None]:
    the goroutine cannot move (it has returned, or it waits on a nil
    channel). *)
Definition crawl_step (g : nat) (now : Z) (c : Crawler) (t : Task)
    : option (Crawler * Stage * list Task * list Event) :=
  let u := pageURL t in
  match stage t with
  | AtEntry =>
      if maxDepth c <? depth t then Some (c, Returned, [], [])
      else if isVisited c u then Some (c, Returned, [], [EvCheck g u true])
      else Some (c, AtLimiter, [], [EvCheck g u false])
  | AtLimiter =>
      match rateLimiter c with
      | None => None
      | Some _ => Some (c, AtMark, [], [EvTick g u])
      end
  | AtMark => Some (markVisited c u, AtFetch, [], [EvMark g u])
  | AtFetch =>
      match neturl_Parse u with
      | inl _ => Some (c, Returned, [], [])
      | inr parsedURL =>
          match http_Get u with
          | None => Some (c, Returned, [], [EvGet g u])
          | Some resp =>
              if negb (resp_StatusCode resp =? 200)
              then Some (c, Returned, [], [EvGet g u])
              else match resp_Body resp with
                   | None => Some (c, Returned, [], [EvGet g u])
                   | Some doc =>
                       Some (c, InLinks parsedURL resp doc (latency u)
                                        (doc_anchors doc) [],
                             [], [EvGet g u])
                   end
          end
      end
  | InLinks parsedURL resp doc responseTime [] links =>
      let pageData := {| URL := u;
                         Title := doc_title doc;
                         Links := links;
                         Depth := depth t;
                         CrawledAt := now;
                         ResponseTime := responseTime;
                         StatusCode := resp_StatusCode resp |} in
      Some (addPageData c pageData, Returned, [], [EvStore g u])
  | InLinks parsedURL resp doc responseTime (anchor :: rest) links =>
      match link_target c parsedURL anchor with
      | None => Some (c, InLinks parsedURL resp doc responseTime rest links,
                      [], [])
      | Some nextURL =>
          let links' := links ++ [nextURL] in
          let next := InLinks parsedURL resp doc responseTime rest links' in
          if isVisited c nextURL then Some (c, next, [], [])
          else Some (c, next,
                     [ {| pageURL := nextURL;
                          depth := Int64.wrap (depth t + 1);
                          stage := AtEntry |} ],
                     [EvSpawn g nextURL (Int64.wrap (depth t + 1))])
      end
  | Returned => None
  end.

(** The crawler, the counter of the wait group, the goroutines started so
    far (a goroutine keeps its number when it returns) and the log. *)
Record System := {
  crawler : Crawler;
  wg : Z;
  pool : list Task;
  log : list Event
}.

(** [wg.Add(1)] for each goroutine started, the deferred [wg.Done()] when
    the stepping one returns. *)
Definition step (g : nat) (now : Z) (s : System) : option System :=
  match pool s !! g with
  | None => None
  | Some t =>
      match crawl_step g now (crawler s) t with
      | None => None
      | Some (c', st', spawned, evs) =>
          Some {| crawler := c';
                  wg := wg s + Z.of_nat (length spawned)
                        - (if is_Returned st' then 1 else 0);
                  pool := <[g := at_stage t st']> (pool s) ++ spawned;
                  log := log s ++ evs |}
      end
  end.

(** A schedule names, step by step, the goroutine that moves and the time
    on the clock. *)
Fixpoint run (sched : list (nat * Z)) (s : System) : option System :=
  match sched with
  | [] => Some s
  | (g, now) :: rest =>
      match step g now s with
      | None => None
      | Some s' => run rest s'
      end
  end.

(** [Start] up to [wg.Wait()]: one goroutine on the seed, counter at 1. *)
Definition Start_spawn (c : Crawler) : System :=
  {| crawler := c;
     wg := 1;
     pool := [ {| pageURL := URL_String (baseURL c); depth := 0;
                  stage := AtEntry |} ];
     log := [] |}.

(** [saveResults]: the two assignments, then the file.  [create_err] and
    [encode_err] are what [os.Create] and [Encode] answer. *)
Definition saveResults (c : Crawler) (now : Z)
    (create_err encode_err : option string) : Crawler * option string :=
  let r := result c in
  let r' := {| BaseURL := BaseURL r; MaxDepth := MaxDepth r;
               StartTime := StartTime r; EndTime := now;
               TotalPages := Z.of_nat (length (Pages r));
               Pages := Pages r |} in
  (set_result c r',
   match create_err with
   | Some e => Some ("error creating file: " +:+ e)%string
   | None =>
       match encode_err with
       | Some e => Some ("error encoding JSON: " +:+ e)%string
       | None => None
       end
   end).

(** [Start] under a schedule: the goroutines run, [wg.Wait()] returns once
    the counter is zero, and the report is saved at time [now].  [None]:
    the schedule does not bring the counter to zero. *)
Definition Start (c : Crawler) (sched : list (nat * Z)) (now : Z)
    (create_err encode_err : option string) : option (Crawler * option string) :=
  match run sched (Start_spawn c) with
  | None => None
  | Some s =>
      if wg s =? 0
      then let '(c', err) := saveResults (crawler s) now
                                         create_err encode_err in
           Some (c', match err with
                     | Some e => Some ("error saving results: " +:+ e)%string
                     | None => None
                     end)
      else None
  end.

(** [main] up to [wg.Wait()]: the message printed when [NewCrawler] fails,
    or the system [Start] sets going. *)
Definition main (input : string) (now : Z) : string + System :=
  match NewCrawler input 3 (Float64.of_Z 2) now with
  | inl err => inl ("Error creating crawler: " +:+ err)%string
  | inr c => inr (Start_spawn c)
  end.

(** ** Predicates on runs *)

(** What no step of [crawl] changes. *)
Definition frame_of (c : Crawler) (s : System) : Prop :=
  maxDepth (crawler s) = maxDepth c /\ baseURL (crawler s) = baseURL c
  /\ rateLimiter (crawler s) = rateLimiter c
  /\ StartTime (result (crawler s)) = StartTime (result c)
  /\ EndTime (result (crawler s)) = EndTime (result c).

(** Past the entry test a goroutine is within the depth limit; in the loop
    over the links it holds a response with status 200. *)
Definition task_ok (limit : Z) (t : Task) : Prop :=
  match stage t with
  | AtEntry | Returned => True
  | AtLimiter | AtMark | AtFetch => depth t <= limit
  | InLinks _ resp _ _ _ _ => depth t <= limit /\ resp_StatusCode resp = 200
  end.

Definition page_ok (limit : Z) (p : PageData) : Prop :=
  Depth p <= limit /\ StatusCode p = 200.

Definition records_ok (s : System) : Prop :=
  Forall (task_ok (maxDepth (crawler s))) (pool s)
  /\ Forall (page_ok (maxDepth (crawler s))) (Pages (result (crawler s))).

(** The goroutines that have not returned; [wg.Wait()] returns when the
    counter is zero. *)
Definition live (t : Task) : bool := negb (is_Returned (stage t)).

Definition live_count (p : list Task) : nat := length (List.filter live p).

Definition finished (s : System) : Prop :=
  wg s = 0 /\ Forall (fun t => stage t = Returned) (pool s).

(** How often [http.Get] was called on [u]. *)
Definition is_get (u : string) (e : Event) : bool :=
  match e with
  | EvGet _ v => String.eqb u v
  | _ => false
  end.

Definition fetches (u : string) (l : list Event) : nat :=
  length (List.filter (is_get u) l).

(** The links of a page in the words of the specification: every anchor
    that is neither empty nor a bare fragment and that resolves is a
    discovered link; it is in scope when its host is the seed's. *)
Definition resolved (parsedURL : Url) (anchor : option string)
    : option Url :=
  match anchor with
  | None => None
  | Some raw =>
      let href := TrimSpace raw in
      if String.eqb href "" || String.prefix "#" href then None
      else URL_Parse parsedURL href
  end.

Definition discovered_links (parsedURL : Url)
    (anchors : list (option string)) : list Url :=
  omap (resolved parsedURL) anchors.

Definition in_scope_links (c : Crawler) (parsedURL : Url)
    (anchors : list (option string)) : list Url :=
  List.filter (isSameDomain c) (discovered_links parsedURL anchors).

(** A record whose link list is the list of all the discovered links of
    its page, in scope or not. *)
Definition lists_discovered_links (p : PageData) : Prop :=
  exists parsedURL resp doc,
    neturl_Parse (URL p) = inr parsedURL
    /\ http_Get (URL p) = Some resp
    /\ resp_Body resp = Some doc
    /\ Links p
       = map URL_String (discovered_links parsedURL (doc_anchors doc)).

(** Where the local variables of a goroutine in the loop come from: the
    page of its own URL, and the links kept are those of the anchors
    already looked at. *)
Definition task_from_page (c : Crawler) (t : Task) : Prop :=
  match stage t with
  | InLinks parsedURL resp doc _ pending links =>
      neturl_Parse (pageURL t) = inr parsedURL
      /\ http_Get (pageURL t) = Some resp
      /\ resp_Body resp = Some doc
      /\ exists seen, doc_anchors doc = seen ++ pending
                      /\ links = omap (link_target c parsedURL) seen
  | _ => True
  end.

Definition page_from_site (c : Crawler) (p : PageData) : Prop :=
  exists parsedURL resp doc,
    neturl_Parse (URL p) = inr parsedURL
    /\ http_Get (URL p) = Some resp
    /\ resp_Body resp = Some doc
    /\ Title p = doc_title doc
    /\ Links p = omap (link_target c parsedURL) (doc_anchors doc).

Definition pages_from_site (c : Crawler) (s : System) : Prop :=
  Forall (task_from_page c) (pool s)
  /\ Forall (page_from_site c) (Pages (result (crawler s))).

(** With a depth limit of zero: goroutine 0 is the one on the seed, the
    others are at depth 1 and can only return, and the one record there
    may be is the seed's. *)
Definition seed_only (seed : string) (s : System) : Prop :=
  (exists st,
     pool s !! 0%nat = Some {| pageURL := seed; depth := 0; stage := st |}
     /\ (Pages (result (crawler s)) = []
         \/ (st = Returned
             /\ exists p, Pages (result (crawler s)) = [p]
                          /\ URL p = seed /\ Depth p = 0)))
  /\ (forall g t, (0 < g)%nat -> pool s !! g = Some t ->
        depth t = 1 /\ (stage t = AtEntry \/ stage t = Returned)).

(** *** A measure of the work left

    [site] lists the URLs of a finite link graph.  [out_bound] is the
    largest number of anchors on one of its pages and [unvisited] counts
    its URLs not yet marked. *)

Definition anchors_on (u : string) : nat :=
  match http_Get u with
  | Some resp =>
      match resp_Body resp with
      | Some doc => length (doc_anchors doc)
      | None => 0%nat
      end
  | None => 0%nat
  end.

Definition out_bound (site : list string) : nat :=
  list_max (map anchors_on site).

Definition unvisited (site : list string) (c : Crawler) : nat :=
  length (List.filter (fun u => negb (isVisited c u)) site).

Definition on_site (site : list string) (u : string) : bool :=
  existsb (String.eqb u) site.

(** Every link kept on a page of [site] is a URL of [site]. *)
Definition closed_under_links (site : list string) (c : Crawler) : bool :=
  forallb
    (fun u =>
       match neturl_Parse u, http_Get u with
       | inr parsedURL, Some resp =>
           match resp_Body resp with
           | Some doc =>
               forallb (fun anchor =>
                          match link_target c parsedURL anchor with
                          | Some nextURL => on_site site nextURL
                          | None => true
                          end)
                       (doc_anchors doc)
           | None => true
           end
       | _, _ => true
       end)
    site.

(** Steps left to a goroutine that enters [crawl] on an unmarked URL when
    [n] URLs are unmarked and a page has at most [bound] anchors. *)
Fixpoint entry_weight (bound n : nat) : nat :=
  match n with
  | O => 1
  | S m => 5 + bound * (1 + entry_weight bound m)
  end%nat.

Definition links_weight (bound n pending : nat) : nat :=
  (1 + pending * (1 + entry_weight bound n))%nat.

Definition after_mark (site : list string) (c : Crawler) (u : string)
    : nat :=
  if isVisited c u then unvisited site c else pred (unvisited site c).

Definition task_weight (site : list string) (c : Crawler) (t : Task)
    : nat :=
  let bound := out_bound site in
  match stage t with
  | AtEntry =>
      if (maxDepth c <? depth t)%Z || isVisited c (pageURL t) then 1
      else entry_weight bound (unvisited site c)
  | AtLimiter =>
      3 + links_weight bound (after_mark site c (pageURL t)) bound
  | AtMark =>
      2 + links_weight bound (after_mark site c (pageURL t)) bound
  | AtFetch => 1 + links_weight bound (unvisited site c) bound
  | InLinks _ _ _ _ pending _ =>
      links_weight bound (unvisited site c) (length pending)
  | Returned => 0
  end%nat.

Definition measure (site : list string) (s : System) : nat :=
  list_sum (map (task_weight site (crawler s)) (pool s)).

(** The goroutines stay on the site. *)
Definition task_on_site (site : list string) (c : Crawler) (t : Task)
    : Prop :=
  on_site site (pageURL t) = true
  /\ match stage t with
     | InLinks parsedURL _ _ _ pending _ =>
         (length pending <= out_bound site)%nat
         /\ Forall (fun anchor =>
                      forall nextURL,
                        link_target c parsedURL anchor = Some nextURL ->
                        on_site site nextURL = true)
                   pending
     | _ => True
     end.

(** A fetch that gives no page: a transport error, a status other than
    200, or a body [goquery] cannot read. *)
Definition fetch_fails (u : string) : Prop :=
  http_Get u = None
  \/ exists resp, http_Get u = Some resp
                  /\ (resp_StatusCode resp <> 200 \/ resp_Body resp = None).

(** Every goroutine but the first is on a URL whose host is the seed's. *)
Definition spawned_in_scope (c : Crawler) (s : System) : Prop :=
  forall g t, (0 < g)%nat -> pool s !! g = Some t ->
    exists absoluteURL,
      isSameDomain c absoluteURL = true
      /\ pageURL t = URL_String absoluteURL.

(** The depths are machine integers, and every goroutine started is one
    level below the one that started it. *)
Definition depths_in_range (s : System) : Prop :=
  Forall (fun t => Int64.in_range (depth t)) (pool s).

Definition spawn_depths (s : System) : Prop :=
  forall g u d, EvSpawn g u d ∈ log s ->
    exists t, pool s !! g = Some t
              /\ depth t <= maxDepth (crawler s)
              /\ d = Int64.wrap (depth t + 1).

(** The goroutines stay on the site and the base URL stays the same. *)
Definition site_inv (site : list string) (c0 : Crawler) (s : System)
    : Prop :=
  baseURL (crawler s) = baseURL c0
  /\ Forall (task_on_site site c0) (pool s).

(** What the run keeps about the links: the base URL, where the records
    come from, and the scope of the goroutines. *)
Definition links_inv (c0 : Crawler) (s : System) : Prop :=
  baseURL (crawler s) = baseURL c0
  /\ pages_from_site c0 s /\ spawned_in_scope c0 s.

(** *** The log, goroutine by goroutine *)

Definition event_of (e : Event) : nat :=
  match e with
  | EvCheck g _ _ | EvTick g _ | EvMark g _ | EvGet g _
  | EvSpawn g _ _ | EvStore g _ => g
  end.

(** The events of goroutine [g], in the order of the log. *)
Definition events_of (g : nat) (l : list Event) : list Event :=
  List.filter (fun e => Nat.eqb (event_of e) g) l.

Definition spawns_of (g : nat) (l : list Event) : Prop :=
  Forall (fun e => exists u d, e = EvSpawn g u d) l.

(** What a call of [crawl] that goes all the way logs: the check, the
    tick, the mark, the request, the goroutines it starts, the record. *)
Definition full_trace (g : nat) (u : string) (spawned : list Event)
    : list Event :=
  [EvCheck g u false; EvTick g u; EvMark g u; EvGet g u]
  ++ spawned ++ [EvStore g u].

(** The events a goroutine has logged when it stands at a stage. *)
Definition trace_at (g : nat) (t : Task) (tr : list Event) : Prop :=
  let u := pageURL t in
  match stage t with
  | AtEntry => tr = []
  | AtLimiter => tr = [EvCheck g u false]
  | AtMark => tr = [EvCheck g u false; EvTick g u]
  | AtFetch => tr = [EvCheck g u false; EvTick g u; EvMark g u]
  | InLinks _ _ _ _ _ _ =>
      exists spawned,
        spawns_of g spawned
        /\ tr = [EvCheck g u false; EvTick g u; EvMark g u; EvGet g u]
                ++ spawned
  | Returned =>
      tr = [] \/ tr = [EvCheck g u true]
      \/ tr = [EvCheck g u false; EvTick g u; EvMark g u]
      \/ tr = [EvCheck g u false; EvTick g u; EvMark g u; EvGet g u]
      \/ exists spawned, spawns_of g spawned /\ tr = full_trace g u spawned
  end.

Definition traces_ok (s : System) : Prop :=
  forall g,
    match pool s !! g with
    | Some t => trace_at g t (events_of g (log s))
    | None => events_of g (log s) = []
    end.

Definition is_tick (e : Event) : bool :=
  match e with EvTick _ _ => true | _ => false end.

Definition is_request (e : Event) : bool :=
  match e with EvGet _ _ => true | _ => false end.

Definition count_events (p : Event -> bool) (l : list Event) : nat :=
  length (List.filter p l).

(** The URLs marked and the URLs recorded, in the order of the log. *)
Definition marked_urls (l : list Event) : list string :=
  omap (fun e => match e with EvMark _ u => Some u | _ => None end) l.

Definition stored_urls (l : list Event) : list string :=
  omap (fun e => match e with EvStore _ u => Some u | _ => None end) l.

Definition is_mark_of (u : string) (e : Event) : bool :=
  match e with
  | EvMark _ v => String.eqb u v
  | _ => false
  end.

(** The visited map holds [true] at the URLs the log marks and nothing
    elsewhere; whoever is past the mark, and every record and request, is
    on a marked URL. *)
Definition visited_ok (s : System) : Prop :=
  (forall u, visited (crawler s) !! u
             = if existsb (is_mark_of u) (log s) then Some true else None)
  /\ Forall (fun t => match stage t with
                      | AtFetch | InLinks _ _ _ _ _ _ =>
                          isVisited (crawler s) (pageURL t) = true
                      | _ => True
                      end) (pool s)
  /\ Forall (fun p => isVisited (crawler s) (URL p) = true)
            (Pages (result (crawler s)))
  /\ (forall g u, EvGet g u ∈ log s -> isVisited (crawler s) u = true).

(** [len(c.visited)], the number [Start] prints. *)
Definition visited_total (c : Crawler) : nat := size (visited c).

(** Goroutines that have their tick and have not made their request yet,
    and goroutines in the loop over the links. *)
Definition has_tick (t : Task) : bool :=
  match stage t with
  | AtMark | AtFetch => true
  | _ => false
  end.

Definition in_link_loop (t : Task) : bool :=
  match stage t with
  | InLinks _ _ _ _ _ _ => true
  | _ => false
  end.

Definition count_tasks (f : Task -> bool) (p : list Task) : nat :=
  length (List.filter f p).

Definition is_store (e : Event) : bool :=
  match e with EvStore _ _ => true | _ => false end.

(** Ticks pay for requests and requests for records. *)
Definition counts_ok (s : System) : Prop :=
  (count_events is_request (log s) + count_tasks has_tick (pool s)
   <= count_events is_tick (log s))%nat
  /\ (count_events is_store (log s) + count_tasks in_link_loop (pool s)
      <= count_events is_request (log s))%nat
  /\ length (Pages (result (crawler s))) = count_events is_store (log s).

(** Goroutine 0 is on the seed at depth 0, the others are between depth 1
    and one past the limit, and a record at depth 0 is the seed's. *)
Definition depths_ok (seed : string) (limit : Z) (s : System) : Prop :=
  (exists st,
      pool s !! 0%nat
      = Some {| pageURL := seed; depth := 0; stage := st |})
  /\ (forall g t, (0 < g)%nat -> pool s !! g = Some t ->
        1 <= depth t <= limit + 1)
  /\ Forall (fun p => 0 <= Depth p <= limit
                      /\ (Depth p = 0 -> URL p = seed))
            (Pages (result (crawler s))).

(** *** What the checks of the visited map answered *)

(** An event that tells what a check of the visited map answered agrees
    with [seen_before]: the check at the entry of [crawl] logs its answer,
    and a goroutine is started only for a URL found unvisited. *)
Definition answered_by (seen_before : string -> bool) (e : Event) : Prop :=
  match e with
  | EvCheck _ u seen => seen = seen_before u
  | EvSpawn _ u _ => seen_before u = false
  | _ => True
  end.

(** Every check was answered by the marks logged before it. *)
Definition answers_ok (s : System) : Prop :=
  forall l1 e l2,
    log s = l1 ++ e :: l2 ->
    answered_by (fun u => existsb (is_mark_of u) l1) e.

(** *** What becomes of the links kept *)





(** The counter of the wait group is the number of live goroutines. *)
Definition wg_counts (s : System) : Prop :=
  wg s = Z.of_nat (live_count (pool s)).

End Crawler.

(** ** An instance of the imported packages

    [Fixture] follows [net/url] (Go 1.22) on the strings made of letters,
    digits and the characters [- . _ ~ / ? : = &], with at most one [#],
    that have no user information, no bracketed host and no opaque part;
    every other string is refused with an error, which the real package
    may not do.  [trim_space] removes the ASCII white space only.  The
    lemmas that use this instance stay inside that fragment. *)

Module Fixture.

Local Open Scope string_scope.

Record url := {
  Scheme : string;
  Host : string;
  Path : string;
  ForceQuery : bool;
  RawQuery : string;
  Fragment : string;
  OmitHost : bool
}.

Definition between (lo hi : nat) (c : ascii) : bool :=
  (lo <=? nat_of_ascii c)%nat && (nat_of_ascii c <=? hi)%nat.

Definition is_lower (c : ascii) : bool := between 97 122 c.
Definition is_upper (c : ascii) : bool := between 65 90 c.
Definition is_digit (c : ascii) : bool := between 48 57 c.

Definition one_of (set : string) (c : ascii) : bool :=
  existsb (Ascii.eqb c) (list_ascii_of_string set).

Definition supported_char (c : ascii) : bool :=
  is_lower c || is_upper c || is_digit c || one_of "-._~/?:=&#" c.

Fixpoint all_chars (p : ascii -> bool) (s : string) : bool :=
  match s with
  | EmptyString => true
  | String c s' => p c && all_chars p s'
  end.

Fixpoint count_char (c : ascii) (s : string) : nat :=
  match s with
  | EmptyString => 0
  | String a s' => (if Ascii.eqb a c then 1 else 0) + count_char c s'
  end.

(** [strings.Cut] on a one-byte separator. *)
Fixpoint cut (c : ascii) (s : string) : string * option string :=
  match s with
  | EmptyString => (EmptyString, None)
  | String a s' =>
      if Ascii.eqb a c then (EmptyString, Some s')
      else let '(before, after) := cut c s' in (String a before, after)
  end.

Fixpoint split (c : ascii) (s : string) : list string :=
  match s with
  | EmptyString => [EmptyString]
  | String a s' =>
      if Ascii.eqb a c then EmptyString :: split c s'
      else match split c s' with
           | x :: xs => String a x :: xs
           | [] => [String a EmptyString]
           end
  end.

Definition to_lower_char (c : ascii) : ascii :=
  if is_upper c then ascii_of_nat (nat_of_ascii c + 32) else c.

Fixpoint ToLower (s : string) : string :=
  match s with
  | EmptyString => EmptyString
  | String c s' => String (to_lower_char c) (ToLower s')
  end.

Definition is_space (c : ascii) : bool :=
  one_of (String (ascii_of_nat 9) (String (ascii_of_nat 10)
         (String (ascii_of_nat 11) (String (ascii_of_nat 12)
         (String (ascii_of_nat 13) " "))))) c.

Fixpoint trim_left (s : string) : string :=
  match s with
  | String c s' => if is_space c then trim_left s' else s
  | EmptyString => EmptyString
  end.

Fixpoint trim_right (s : string) : string :=
  match s with
  | EmptyString => EmptyString
  | String c s' =>
      match trim_right s' with
      | EmptyString => if is_space c then EmptyString
                       else String c EmptyString
      | r => String c r
      end
  end.

Definition trim_space (s : string) : string := trim_right (trim_left s).

(** [getScheme]: the scheme and what follows its colon. *)
Fixpoint getScheme_from (first : bool) (seen rest rawURL : string)
    : string + (string * string) :=
  match rest with
  | EmptyString => inr ("", rawURL)
  | String c rest' =>
      if is_lower c || is_upper c
      then getScheme_from false (seen +:+ String c "") rest' rawURL
      else if is_digit c || one_of "+-." c
      then if first then inr ("", rawURL)
           else getScheme_from false (seen +:+ String c "") rest' rawURL
      else if Ascii.eqb c ":"
      then if first then inl "missing protocol scheme"
           else inr (seen, rest')
      else inr ("", rawURL)
  end.

Definition getScheme (rawURL : string) : string + (string * string) :=
  getScheme_from true "" rawURL rawURL.

(** [parseHost], without brackets: an optional port of digits. *)
Definition parseHost (host : string) : string + string :=
  match rev (split ":" host) with
  | port :: _ :: _ =>
      if all_chars is_digit port then inr host
      else inl ("invalid port after host")
  | _ => inr host
  end.

Definition has_prefix (p s : string) : bool := String.prefix p s.

Definition ends_with (c : ascii) (s : string) : bool :=
  match rev (list_ascii_of_string s) with
  | a :: _ => Ascii.eqb a c
  | [] => false
  end.

Definition drop_last (s : string) : string :=
  string_of_list_ascii (removelast (list_ascii_of_string s)).

(** [parse(rawURL, false)], the part of [url.Parse] before the fragment. *)
Definition parse (rawURL : string) : string + url :=
  if String.eqb rawURL "*"
  then inr {| Scheme := ""; Host := ""; Path := "*"; ForceQuery := false;
              RawQuery := ""; Fragment := ""; OmitHost := false |}
  else
  match getScheme rawURL with
  | inl e => inl e
  | inr (scheme, rest) =>
      let scheme := ToLower scheme in
      let '(rest, force, query) :=
        if ends_with "?" rest && Nat.eqb (count_char "?" rest) 1
        then (drop_last rest, true, "")
        else let '(r, q) := cut "?" rest in (r, false, default "" q) in
      if negb (has_prefix "/" rest) && negb (String.eqb scheme "")
      then inl "opaque URL"
      else if negb (has_prefix "/" rest)
              && (existsb (Ascii.eqb ":")
                    (list_ascii_of_string (fst (cut "/" rest))))
      then inl "first path segment in URL cannot contain colon"
      else
      if (negb (String.eqb scheme "") || negb (has_prefix "///" rest))
         && has_prefix "//" rest
      then
        let authority := substring 2 (String.length rest - 2) rest in
        let '(hostpart, after) := cut "/" authority in
        let path := match after with
                    | Some p => String "/" p
                    | None => ""
                    end in
        match parseHost hostpart with
        | inl e => inl e
        | inr host =>
            inr {| Scheme := scheme; Host := host; Path := path;
                   ForceQuery := force; RawQuery := query; Fragment := "";
                   OmitHost := false |}
        end
      else
        inr {| Scheme := scheme; Host := ""; Path := rest;
               ForceQuery := force; RawQuery := query; Fragment := "";
               OmitHost := negb (String.eqb scheme "")
                           && has_prefix "/" rest |}
  end.

Definition quote : string := String (ascii_of_nat 34) "".

(** [url.Parse]. *)
Definition Parse (rawURL : string) : string + url :=
  if negb (all_chars supported_char rawURL)
     || (1 <? count_char "#" rawURL)%nat
  then inl ("parse " +:+ quote +:+ rawURL +:+ quote +:+ ": not supported")
  else
  let '(u, frag) := cut "#" rawURL in
  match parse u with
  | inl e => inl ("parse " +:+ quote +:+ rawURL +:+ quote +:+ ": " +:+ e)
  | inr p =>
      inr {| Scheme := Scheme p; Host := Host p; Path := Path p;
             ForceQuery := ForceQuery p; RawQuery := RawQuery p;
             Fragment := default "" frag; OmitHost := OmitHost p |}
  end.

Definition IsAbs (u : url) : bool := negb (String.eqb (Scheme u) "").

(** [u.String()]. *)
Definition String_ (u : url) : string :=
  let head := if String.eqb (Scheme u) "" then "" else Scheme u +:+ ":" in
  let auth :=
    if negb (String.eqb (Scheme u) "") || negb (String.eqb (Host u) "")
    then if OmitHost u && String.eqb (Host u) "" then ""
         else (if negb (String.eqb (Host u) "")
                  || negb (String.eqb (Path u) "")
               then "//" else "") +:+ Host u
    else "" in
  let slash :=
    if negb (String.eqb (Path u) "") && negb (has_prefix "/" (Path u))
       && negb (String.eqb (Host u) "")
    then "/" else "" in
  let buf := head +:+ auth +:+ slash in
  let dot :=
    if String.eqb buf ""
       && existsb (Ascii.eqb ":")
            (list_ascii_of_string (fst (cut "/" (Path u))))
    then "./" else "" in
  buf +:+ dot +:+ Path u
  +:+ (if ForceQuery u || negb (String.eqb (RawQuery u) "")
       then "?" +:+ RawQuery u else "")
  +:+ (if String.eqb (Fragment u) "" then "" else "#" +:+ Fragment u).

(** The loop of [resolvePath] over the elements of the joined path: the
    text written so far (after its leading slash, kept apart) and
    whether the next element is the first. *)
Fixpoint resolve_elems (elems : list string) (dst : string) (first : bool)
    : string :=
  match elems with
  | [] => dst
  | elem :: rest =>
      if String.eqb elem "." then resolve_elems rest dst false
      else if String.eqb elem ".."
      then match rev (split "/" dst) with
           | _ :: (_ :: _) as kept =>
               resolve_elems rest
                 (String.concat "/" (rev kept)) first
           | _ => resolve_elems rest "" true
           end
      else resolve_elems rest
             ((if first then dst else dst +:+ "/") +:+ elem) false
  end.

Definition resolvePath (base ref : string) : string :=
  let full :=
    if String.eqb ref "" then base
    else if negb (has_prefix "/" ref)
    then String.concat "" (map (fun s => s +:+ "/")
                             (removelast (split "/" base))) +:+ ref
    else ref in
  if String.eqb full "" then ""
  else
    let elems := split "/" full in
    let body := resolve_elems elems "" true in
    let last_elem := List.last elems "" in
    let body := if String.eqb last_elem "." || String.eqb last_elem ".."
                then body +:+ "/" else body in
    if has_prefix "/" body then body else "/" +:+ body.

(** [u.ResolveReference(ref)]. *)
Definition ResolveReference (u ref : url) : url :=
  let scheme := if String.eqb (Scheme ref) "" then Scheme u
                else Scheme ref in
  if negb (String.eqb (Scheme ref) "") || negb (String.eqb (Host ref) "")
  then {| Scheme := scheme; Host := Host ref;
          Path := resolvePath (Path ref) "";
          ForceQuery := ForceQuery ref; RawQuery := RawQuery ref;
          Fragment := Fragment ref; OmitHost := OmitHost ref |}
  else
    let keep := String.eqb (Path ref) "" && negb (ForceQuery ref)
                && String.eqb (RawQuery ref) "" in
    {| Scheme := scheme; Host := Host u;
       Path := resolvePath (Path u) (Path ref);
       ForceQuery := ForceQuery ref;
       RawQuery := if keep then RawQuery u else RawQuery ref;
       Fragment := if keep && String.eqb (Fragment ref) ""
                   then Fragment u else Fragment ref;
       OmitHost := OmitHost ref |}.

(** [u.Parse(ref)]. *)
Definition Parse_ref (u : url) (ref : string) : option url :=
  match Parse ref with
  | inl _ => None
  | inr r => Some (ResolveReference u r)
  end.

#[export] Instance url_type : UrlType := url.

#[export] Instance lib : GoLib := {|
  URL_Host := Host;
  URL_IsAbs := IsAbs;
  neturl_Parse := Parse;
  URL_Parse := Parse_ref;
  URL_String := String_;
  TrimSpace := trim_space
|}.

(** *** A few small sites *)

Definition page (title : string) (hrefs : list (option string))
    : Response :=
  {| resp_StatusCode := 200;
     resp_Body := Some {| doc_anchors := hrefs; doc_title := title |} |}.

Definition status_only (code : Z) : Response :=
  {| resp_StatusCode := code;
     resp_Body := Some {| doc_anchors := []; doc_title := "" |} |}.

(** - [scope.test]: A links to B on its host and to C on another host.
    - [dup.test]: A carries the same link to B twice.
    - [cycle.test]: A links to B and B links to A.
    - [q.test]: links that differ in the query or in the fragment only.
    - [err.test]: one of the two linked pages answers 500. *)
Definition pages : list (string * Response) :=
  [ ("http://scope.test/", page "A" [Some "/b"; Some "http://other.test/c"]);
    ("http://scope.test/b", page "B" []);
    ("http://other.test/c", page "C" []);
    ("http://dup.test/", page "A" [Some "/b"; Some "/b"]);
    ("http://dup.test/b", page "B" []);
    ("http://cycle.test/a", page "A" [Some "/b"]);
    ("http://cycle.test/b", page "B" [Some "/a"]);
    ("http://q.test/",
     page "Q" [Some "/p?x=1"; Some "/p?x=2"; Some "/p#s1"; Some "/p#s2";
               Some "#top"; None; Some "  "]);
    ("http://q.test/p?x=1", page "P1" []);
    ("http://q.test/p?x=2", page "P2" []);
    ("http://q.test/p#s1", page "P" []);
    ("http://q.test/p#s2", page "P" []);
    ("http://err.test/", page "E" [Some "/gone"; Some "/ok"]);
    ("http://err.test/gone", status_only 500);
    ("http://err.test/ok", page "OK" []) ].

Definition get (u : string) : option Response :=
  option_map snd (List.find (fun e => String.eqb (fst e) u) pages).

#[export] Instance web : Web := {|
  http_Get := get;
  latency := fun _ => 120
|}.

(** The crawler on [seed], made at time 1000 with two requests a second,
    and its first goroutine. *)
Definition boot (seed : string) (limit : Z) : option System :=
  match NewCrawler seed limit (Float64.of_Z 2) 1000 with
  | inl _ => None
  | inr c => Some (Start_spawn c)
  end.

(** A schedule from the goroutine numbers alone, the clock moving by half
    a second a step. *)
Definition clocked (gs : list nat) : list (nat * Z) :=
  imap (fun i g => (g, 1500 + 500 * Z.of_nat i)) gs.

Definition go (seed : string) (limit : Z) (gs : list nat)
    : option System :=
  match boot seed limit with
  | None => None
  | Some s => run (clocked gs) s
  end.

(** The crawler and the state a run of [go] ends in, for the runs that do
    not stop short. *)
Definition blank : Crawler :=
  {| visited := ∅;
     baseURL := {| Scheme := ""; Host := ""; Path := ""; ForceQuery := false;
                   RawQuery := ""; Fragment := ""; OmitHost := false |};
     maxDepth := 0;
     rateLimiter := None;
     result := {| BaseURL := ""; MaxDepth := 0; StartTime := 0;
                  EndTime := 0; TotalPages := 0; Pages := [] |} |}.

Definition crawler_on (seed : string) (limit : Z) : Crawler :=
  match NewCrawler seed limit (Float64.of_Z 2) 1000 with
  | inl _ => blank
  | inr c => c
  end.

Definition ran {A : Type} (o : option A) : bool :=
  match o with
  | Some _ => true
  | None => false
  end.

Definition state_after (seed : string) (limit : Z) (gs : list nat)
    : System :=
  default (Start_spawn blank)
          (run (clocked gs) (Start_spawn (crawler_on seed limit))).

Definition task_at (s : System) (g : nat) : Task :=
  default {| pageURL := ""; depth := 0; stage := Returned |} (pool s !! g).



(** The states the theorems below are tried on. *)
Definition scope_steps : list nat := [0; 0; 0; 0; 0; 0; 0; 1]%nat.
Definition scope_seed_steps : list nat := [0; 0; 0; 0; 0; 0; 0]%nat.
Definition err_steps : list nat := [0; 0; 0; 0; 0; 0; 0; 1; 1; 1]%nat.
Definition cycle_site : list string :=
  ["http://cycle.test/a"; "http://cycle.test/b"].
Definition cycle_steps : list nat := [0; 0; 0; 0; 0; 0]%nat.
Definition cycle_more : list nat := [1; 1; 1; 1; 1; 1]%nat.
(** The crawler on [scope.test] asked for 2000 requests a second, for
    which [time.Tick] gives the nil channel. *)
Definition hasty : Crawler :=
  match NewCrawler "http://scope.test/" 3 (Float64.of_Z 2000) 1000 with
  | inl _ => blank
  | inr c => c
  end.




Definition scope_saved : Crawler * option string :=
  default (blank, None)
          (Start (crawler_on "http://scope.test/" 0) (clocked scope_steps)
                 9000 None None).

End Fixture.

(** * Properties

    ** Machine integers *)

Lemma wrap_in_range z : Int64.in_range (Int64.wrap z).
Proof.
  unfold Int64.in_range, Int64.wrap, Int64.min_int, Int64.max_int.
  pose proof (Z.mod_pos_bound (z + 2 ^ 63) (2 ^ 64) ltac:(lia)). lia.
Qed.

Lemma wrap_id z : Int64.in_range z -> Int64.wrap z = z.
Proof.
  unfold Int64.in_range, Int64.wrap, Int64.min_int, Int64.max_int. intros H.
  rewrite Z.mod_small by lia. lia.
Qed.

(** [break_in H] takes apart every [match] of the hypothesis [H];
    [crawl_cases H] does it for [H : crawl_step ... = Some ...], which
    gives the cases of the body of [crawl]. *)
Ltac break_in H :=
  repeat match type of H with
         | context [match ?x with _ => _ end] => destruct x eqn:?
         end.

Ltac crawl_cases H := unfold crawl_step in H; break_in H; simplify_eq.

(** ** Runs and what every step keeps *)

Section Runs.

Context `{lib : GoLib} `{web : Web}.

Lemma step_inv g now s s' :
  step g now s = Some s' ->
  exists t c' st' spawned evs,
    pool s !! g = Some t
    /\ crawl_step g now (crawler s) t = Some (c', st', spawned, evs)
    /\ s' = {| crawler := c';
               wg := wg s + Z.of_nat (length spawned)
                     - (if is_Returned st' then 1 else 0);
               pool := <[g := at_stage t st']> (pool s) ++ spawned;
               log := log s ++ evs |}.
Proof.
  unfold step. intros Hs.
  destruct (pool s !! g) as [t|]; [|discriminate].
  destruct (crawl_step g now (crawler s) t) as [[[[c' st'] sp] evs]|] eqn:E;
    [|discriminate].
  injection Hs as <-. exists t, c', st', sp, evs. auto.
Qed.

Lemma run_app sched1 sched2 s :
  run (sched1 ++ sched2) s
  = match run sched1 s with Some s' => run sched2 s' | None => None end.
Proof.
  revert s. induction sched1 as [|[g now] sched1 IH]; intros s; simpl; [done|].
  destruct (step g now s); [apply IH | done].
Qed.

(** A property kept by every step holds all along a run. *)
Lemma run_invariant (P : System -> Prop) :
  (forall g now s s', P s -> step g now s = Some s' -> P s') ->
  forall sched s s', P s -> run sched s = Some s' -> P s'.
Proof.
  intros Hstep sched. induction sched as [|[g now] sched IH];
    intros s s' HP Hrun; simpl in Hrun.
  - by injection Hrun as <-.
  - destruct (step g now s) as [s1|] eqn:E; [|discriminate]. eauto.
Qed.

(** A step of [crawl] touches the visited map and the page list only. *)
Lemma crawl_step_frame g now c t c' st' spawned evs :
  crawl_step g now c t = Some (c', st', spawned, evs) ->
  maxDepth c' = maxDepth c /\ baseURL c' = baseURL c
  /\ rateLimiter c' = rateLimiter c
  /\ BaseURL (result c') = BaseURL (result c)
  /\ MaxDepth (result c') = MaxDepth (result c)
  /\ StartTime (result c') = StartTime (result c)
  /\ EndTime (result c') = EndTime (result c)
  /\ TotalPages (result c') = TotalPages (result c).
Proof. intros H0. crawl_cases H0; simpl; auto 10. Qed.

Lemma run_frame c sched s :
  run sched (Start_spawn c) = Some s -> frame_of c s.
Proof.
  apply (run_invariant (frame_of c)); [|by repeat split].
  intros g now s0 s1 (H1 & H2 & H3 & H4 & H5) Hs.
  apply step_inv in Hs as (t & c' & st' & sp & evs & _ & Hc & ->).
  apply crawl_step_frame in Hc as (? & ? & ? & ? & ? & ? & ? & ?).
  unfold frame_of; simpl. repeat split; congruence.
Qed.

(** *** Depth and status of what is recorded *)

Lemma crawl_step_ok g now c t c' st' spawned evs :
  crawl_step g now c t = Some (c', st', spawned, evs) ->
  task_ok (maxDepth c) t ->
  Forall (page_ok (maxDepth c)) (Pages (result c)) ->
  task_ok (maxDepth c) (at_stage t st')
  /\ Forall (task_ok (maxDepth c)) spawned
  /\ Forall (page_ok (maxDepth c)) (Pages (result c')).
Proof.
  intros H0 Ht Hp. unfold task_ok in *.
  crawl_cases H0; simpl in *; repeat split;
    repeat match goal with
           | |- Forall _ [] => constructor
           | |- Forall _ [_] => constructor; simpl
           | |- Forall _ (_ ++ _) => apply Forall_app; split
           | H : (_ <? _) = false |- _ => apply Z.ltb_ge in H
           | H : negb (_ =? _) = false |- _ =>
               apply negb_false_iff, Z.eqb_eq in H
           end; try tauto; try lia.
  unfold page_ok; simpl; tauto.
Qed.

Lemma records_ok_step g now s s' :
  records_ok s -> step g now s = Some s' -> records_ok s'.
Proof.
  intros [Hpool Hpages] Hs.
  apply step_inv in Hs as (t & c' & st' & sp & evs & Hg & Hc & ->).
  pose proof (crawl_step_frame _ _ _ _ _ _ _ _ Hc) as (Hmd & _).
  assert (Ht : task_ok (maxDepth (crawler s)) t).
  { rewrite Forall_forall in Hpool. apply Hpool.
    by apply list_elem_of_lookup_2 in Hg. }
  destruct (crawl_step_ok _ _ _ _ _ _ _ _ Hc Ht Hpages) as (H1 & H2 & H3).
  unfold records_ok; simpl. rewrite Hmd. split; [|done].
  apply Forall_app; split; [|done]. by apply Forall_insert.
Qed.

Lemma records_ok_run c sched s :
  Pages (result c) = [] ->
  run sched (Start_spawn c) = Some s -> records_ok s.
Proof.
  intros Hnil. apply (run_invariant records_ok).
  - intros g now s0 s1. apply records_ok_step.
  - unfold records_ok, Start_spawn; simpl. rewrite Hnil.
    split; repeat constructor.
Qed.

Lemma NewCrawler_fresh base limit rps now c :
  NewCrawler base limit rps now = inr c ->
  visited c = ∅ /\ maxDepth c = limit
  /\ rateLimiter c = Time.Tick (tick_duration rps)
  /\ result c = {| BaseURL := base; MaxDepth := limit; StartTime := now;
                   EndTime := Time.zero; TotalPages := 0; Pages := [] |}
  /\ neturl_Parse base = inr (baseURL c).
Proof.
  unfold NewCrawler. destruct (neturl_Parse base); [discriminate|].
  intros [= <-]. simpl. auto.
Qed.

(** The pool after a step, read at one index. *)
Lemma lookup_step_pool (pool0 : list Task) g x spawned i y :
  (<[g := x]> pool0 ++ spawned) !! i = Some y ->
  (i = g /\ y = x) \/ (i <> g /\ pool0 !! i = Some y)
  \/ ((length pool0 <= i)%nat /\ y ∈ spawned).
Proof.
  intros Hl. apply lookup_app_Some in Hl as [Hl | [Hlen Hl]].
  - destruct (decide (i = g)) as [->|Hne].
    + left. split; [done|].
      apply lookup_lt_Some in Hl as Hlt. rewrite length_insert in Hlt.
      rewrite list_lookup_insert_eq in Hl by done. congruence.
    + right; left. by rewrite list_lookup_insert_ne in Hl.
  - right; right. rewrite length_insert in Hlen. split; [done|].
    by apply list_elem_of_lookup_2 in Hl.
Qed.

Lemma lookup_step_pool_self (pool0 : list Task) g t x spawned :
  pool0 !! g = Some t ->
  (<[g := x]> pool0 ++ spawned) !! g = Some x.
Proof.
  intros Hg. apply lookup_lt_Some in Hg as Hlt.
  rewrite lookup_app_l by (by rewrite length_insert).
  by apply list_lookup_insert_eq.
Qed.

Lemma lookup_step_pool_other (pool0 : list Task) g i z x spawned :
  i <> g -> pool0 !! i = Some z ->
  (<[g := x]> pool0 ++ spawned) !! i = Some z.
Proof.
  intros Hne Hi. apply lookup_lt_Some in Hi as Hlt.
  rewrite lookup_app_l by (by rewrite length_insert).
  by rewrite list_lookup_insert_ne.
Qed.

Lemma lookup_spawned_last (pool0 : list Task) g x y :
  (<[g := x]> pool0 ++ [y]) !! length pool0 = Some y.
Proof.
  rewrite lookup_app_r by (by rewrite length_insert).
  by rewrite length_insert, Nat.sub_diag.
Qed.

(** *** A depth limit of zero *)

Lemma seed_only_step seed g now s s' :
  maxDepth (crawler s) = 0 ->
  seed_only seed s -> step g now s = Some s' -> seed_only seed s'.
Proof.
  intros Hmd [(st & H0 & Hpages) Hrest] Hs.
  apply step_inv in Hs as (t & c' & st' & sp & evs & Hg & Hc & ->).
  destruct (decide (g = 0%nat)) as [->|Hg0].
  - (* the goroutine on the seed moves *)
    rewrite H0 in Hg. injection Hg as <-.
    assert (Hsp : Forall (fun t' => depth t' = 1 /\ stage t' = AtEntry) sp
                  /\ (Pages (result c') = []
                      \/ st' = Returned
                         /\ exists p, Pages (result c') = [p]
                                      /\ URL p = seed /\ Depth p = 0)).
    { crawl_cases Hc; simpl in *;
        (split; [repeat constructor|]); try (by left);
        try (destruct Hpages as [Hp | [? _]]; [by left | congruence]).
      destruct Hpages as [Hp | [? _]]; [|congruence].
      right. split; [done|]. rewrite Hp. simpl. eauto. }
    destruct Hsp as [Hsp Hp']. split; simpl.
    + exists st'. split; [|done].
      by erewrite lookup_step_pool_self.
    + intros i y Hi Hl.
      apply lookup_step_pool in Hl as [[-> _] | [[_ Hl] | [_ Hl]]]; [lia| |].
      * by apply (Hrest i).
      * rewrite Forall_forall in Hsp. destruct (Hsp y Hl) as [? ?]. auto.
  - (* a goroutine at depth 1 can only return *)
    destruct (Hrest g t ltac:(lia) Hg) as [Hd Hst].
    assert (c' = crawler s /\ st' = Returned /\ sp = []) as (-> & -> & ->).
    { unfold crawl_step in Hc. destruct Hst as [Hst | Hst]; rewrite Hst in Hc;
        [|discriminate].
      rewrite Hmd, Hd in Hc. simpl in Hc. by injection Hc as <- <- <- <-. }
    split; simpl.
    + exists st. split; [|done]. by apply lookup_step_pool_other.
    + intros i y Hi Hl.
      apply lookup_step_pool in Hl as [[-> ->] | [[_ Hl] | [_ Hl]]].
      * simpl. auto.
      * by apply (Hrest i).
      * by apply elem_of_nil in Hl.
Qed.

Lemma seed_only_run c sched s :
  maxDepth c = 0 -> Pages (result c) = [] ->
  run sched (Start_spawn c) = Some s ->
  seed_only (URL_String (baseURL c)) s.
Proof.
  intros Hmd Hnil Hrun.
  assert (Hboth : seed_only (URL_String (baseURL c)) s
                  /\ maxDepth (crawler s) = 0); [|tauto].
  revert Hrun.
  apply (run_invariant
           (fun s => seed_only (URL_String (baseURL c)) s
                     /\ maxDepth (crawler s) = 0)).
  - intros g now s0 s1 [Hi Hm] Hs. split.
    + by eapply seed_only_step.
    + apply step_inv in Hs as (t & c' & st' & sp & evs & _ & Hc & ->).
      apply crawl_step_frame in Hc as (Hc & _). simpl. congruence.
  - split; [|done]. split.
    + exists AtEntry. simpl. split; [done|]. by left.
    + intros g t Hg Hl. simpl in Hl. destruct g; [lia|]. done.
Qed.

End Runs.

(** ** The report *)

Section Report.

Context `{lib : GoLib} `{web : Web}.

(** C4.  No record of the report is deeper than the depth limit; a call
    of [crawl] beyond the limit returns at once and changes nothing; and
    with a limit of zero the report holds at most one record, that of the
    seed. *)
Theorem depth_limit_respected base limit rps t0 c sched s :
  NewCrawler base limit rps t0 = inr c ->
  run sched (Start_spawn c) = Some s ->
  Forall (fun p => Depth p <= limit) (Pages (result (crawler s)))
  /\ (forall g now t,
        pool s !! g = Some t -> stage t = AtEntry -> limit < depth t ->
        step g now s
        = Some {| crawler := crawler s; wg := wg s - 1;
                  pool := <[g := at_stage t Returned]> (pool s);
                  log := log s |})
  /\ (limit = 0 ->
      (length (Pages (result (crawler s))) <= 1)%nat
      /\ Forall (fun p => URL p = URL_String (baseURL c) /\ Depth p = 0)
                (Pages (result (crawler s)))).
Proof.
  intros Hnew Hrun.
  apply NewCrawler_fresh in Hnew as (_ & Hmd & _ & Hres & _).
  assert (Hnil : Pages (result c) = []) by (by rewrite Hres).
  pose proof (run_frame _ _ _ Hrun) as (Hmd' & _).
  split; [|split].
  - destruct (records_ok_run _ _ _ Hnil Hrun) as [_ Hp].
    eapply Forall_impl; [exact Hp|]. intros p [Hd _]. lia.
  - intros g now t Hg Hst Hdeep. unfold step, crawl_step.
    rewrite Hg, Hst, Hmd', Hmd.
    apply Z.ltb_lt in Hdeep. rewrite Hdeep. simpl.
    by rewrite Z.add_0_r, app_nil_r, app_nil_r.
  - intros ->.
    destruct (seed_only_run _ _ _ Hmd Hnil Hrun) as [(st & _ & Hp) _].
    destruct Hp as [-> | (_ & p & -> & Hu & Hd)]; simpl.
    + split; [lia | constructor].
    + split; [lia | by repeat constructor].
Qed.

(** C5.  Every record of the report has status 200, and a goroutine whose
    fetch fails returns with the crawler, its report included, as it
    was. *)
Theorem only_status_200_recorded base limit rps t0 c sched s :
  NewCrawler base limit rps t0 = inr c ->
  run sched (Start_spawn c) = Some s ->
  Forall (fun p => StatusCode p = 200) (Pages (result (crawler s)))
  /\ (forall g now t,
        pool s !! g = Some t -> stage t = AtFetch ->
        fetch_fails (pageURL t) ->
        exists s', step g now s = Some s'
                   /\ crawler s' = crawler s
                   /\ pool s' = <[g := at_stage t Returned]> (pool s)).
Proof.
  intros Hnew Hrun.
  apply NewCrawler_fresh in Hnew as (_ & _ & _ & Hres & _).
  assert (Hnil : Pages (result c) = []) by (by rewrite Hres).
  split.
  - destruct (records_ok_run _ _ _ Hnil Hrun) as [_ Hp].
    eapply Forall_impl; [exact Hp|]. by intros p [_ ?].
  - intros g now t Hg Hst Hfail. unfold step, crawl_step.
    rewrite Hg, Hst.
    destruct (neturl_Parse (pageURL t)) as [e|parsedURL]; simpl.
    { eexists. split; [reflexivity|]. simpl. by rewrite app_nil_r. }
    destruct Hfail as [-> | (resp & -> & [Hcode | Hbody])]; simpl.
    + eexists. split; [reflexivity|]. simpl. by rewrite app_nil_r.
    + apply Z.eqb_neq in Hcode. rewrite Hcode. simpl.
      eexists. split; [reflexivity|]. simpl. by rewrite app_nil_r.
    + rewrite Hbody. destruct (negb _);
        (eexists; split; [reflexivity|]; simpl; by rewrite app_nil_r).
Qed.

(** C8.  In the report [Start] saves, [TotalPages] is the number of
    records and [EndTime] is the time of saving; [StartTime] is still the
    time of [NewCrawler], so that the end is not before the start when
    the clock has not gone back; and all along the run, until the report
    is saved, [EndTime] is the zero time. *)
Theorem report_totals_and_times
    base limit rps t0 c sched t1 ce ee c' err :
  NewCrawler base limit rps t0 = inr c ->
  Start c sched t1 ce ee = Some (c', err) ->
  t0 <= t1 ->
  TotalPages (result c') = Z.of_nat (length (Pages (result c')))
  /\ StartTime (result c') = t0
  /\ EndTime (result c') = t1
  /\ StartTime (result c') <= EndTime (result c')
  /\ (forall sched0 s,
        run sched0 (Start_spawn c) = Some s ->
        EndTime (result (crawler s)) = Time.zero).
Proof.
  intros Hnew Hstart Hclock.
  apply NewCrawler_fresh in Hnew as (_ & _ & _ & Hres & _).
  assert (Hzero : forall sched0 s,
             run sched0 (Start_spawn c) = Some s ->
             EndTime (result (crawler s)) = Time.zero).
  { intros sched0 s Hrun.
    pose proof (run_frame _ _ _ Hrun) as (_ & _ & _ & _ & Hend).
    by rewrite Hend, Hres. }
  unfold Start in Hstart.
  destruct (run sched (Start_spawn c)) as [s|] eqn:Hrun; [|discriminate].
  destruct (wg s =? 0); [|discriminate].
  pose proof (run_frame _ _ _ Hrun) as (_ & _ & _ & Hst & _).
  rewrite Hres in Hst. simpl in *. injection Hstart as <- _. simpl.
  repeat split; try done. by rewrite Hst.
Qed.

(** C9, as amended.  [NewCrawler] refuses what [url.Parse] refuses, and
    then [main] starts no goroutine; whatever [url.Parse] accepts gives a
    crawler and a first goroutine on it. *)
Theorem seed_checked_by_parse_only input now :
  (exists err,
      neturl_Parse input = inl err
      /\ NewCrawler input 3 (Float64.of_Z 2) now
         = inl ("invalid base URL: " +:+ err)%string
      /\ main input now
         = inl ("Error creating crawler: "
                +:+ ("invalid base URL: " +:+ err))%string)
  \/ (exists u c,
        neturl_Parse input = inr u
        /\ NewCrawler input 3 (Float64.of_Z 2) now = inr c
        /\ baseURL c = u
        /\ main input now = inr (Start_spawn c)).
Proof.
  unfold main, NewCrawler.
  destruct (neturl_Parse input) as [err|u]; [left | right]; eauto 10.
Qed.

End Report.

(** ** The period of the rate limiter *)

(** C7, the claim refuted: at three requests a second the period is 333
    milliseconds, and three such periods are not a second. *)
Lemma period_for_three_is_truncated :
  Time.Tick (tick_duration (Float64.of_Z 3)) = Some (333 * Time.Millisecond)
  /\ 3 * tick_duration (Float64.of_Z 3) <> 1000 * Time.Millisecond.
Proof. split; [reflexivity | by vm_compute]. Qed.

Lemma quotient_table :
  forallb (fun k =>
             match Float64.trunc
                     (Float64.div (Float64.of_Z 1000)
                                  (Float64.of_Z (Z.of_nat k))) with
             | Some q => q =? 1000 / Z.of_nat k
             | None => false
             end)
          (seq 1 1000) = true.
Proof. vm_compute. reflexivity. Qed.

(** C7, as amended.  The period is the binary64 quotient
    [1000 / requestsPerSecond] with its fraction dropped, in whole
    milliseconds, whenever that is at least one millisecond and fits a
    [Duration]; for a whole number of requests a second from 1 to 1000
    this is the integer quotient of 1000 by that number. *)
Theorem period_is_whole_milliseconds `{lib : GoLib}
    base limit now c requestsPerSecond q :
  NewCrawler base limit requestsPerSecond now = inr c ->
  Float64.trunc (Float64.div (Float64.of_Z 1000) requestsPerSecond)
  = Some q ->
  1 <= q <= Int64.max_int / Time.Millisecond ->
  rateLimiter c = Some (q * Time.Millisecond)
  /\ (forall n, 1 <= n <= 1000 ->
                requestsPerSecond = Float64.of_Z n -> q = 1000 / n).
Proof.
  intros Hnew Hq Hrange.
  apply NewCrawler_fresh in Hnew as (_ & _ & -> & _).
  assert (Hmax : Int64.max_int / Time.Millisecond = 9223372036854)
    by reflexivity.
  rewrite Hmax in Hrange. split.
  - unfold tick_duration, Float64.to_int64. rewrite Hq.
    assert (Hin : (Int64.min_int <=? q) && (q <=? Int64.max_int) = true).
    { apply andb_true_iff. unfold Int64.min_int, Int64.max_int.
      split; apply Z.leb_le; lia. }
    rewrite Hin, wrap_id.
    + unfold Time.Tick.
      destruct (Z.leb_spec (q * Time.Millisecond) 0) as [Hle|]; [|done].
      unfold Time.Millisecond in Hle. lia.
    + unfold Int64.in_range, Int64.min_int, Int64.max_int,
        Time.Millisecond. lia.
  - intros n Hn ->.
    pose proof quotient_table as Htab.
    rewrite forallb_forall in Htab.
    specialize (Htab (Z.to_nat n) ltac:(apply in_seq; lia)).
    rewrite Z2Nat.id, Hq in Htab by lia.
    by apply Z.eqb_eq in Htab.
Qed.

(** ** The links of a record *)

Section Scope.

Context `{lib : GoLib} `{web : Web}.

Lemma link_target_resolved c parsedURL anchor :
  link_target c parsedURL anchor
  = match resolved parsedURL anchor with
    | Some absoluteURL =>
        if isSameDomain c absoluteURL then Some (URL_String absoluteURL)
        else None
    | None => None
    end.
Proof.
  unfold link_target, resolved. destruct anchor as [raw|]; [|done].
  destruct (_ || _); [done|].
  destruct (URL_Parse parsedURL (TrimSpace raw)) as [a|]; [|done].
  by destruct (isSameDomain c a).
Qed.

(** The links kept are the discovered links that are in scope, in the
    order of the anchors. *)
Lemma omap_link_target c parsedURL anchors :
  omap (link_target c parsedURL) anchors
  = map URL_String (in_scope_links c parsedURL anchors).
Proof.
  unfold in_scope_links, discovered_links.
  induction anchors as [|a anchors IH]; [done|]. simpl.
  rewrite link_target_resolved.
  destruct (resolved parsedURL a) as [abs|]; [|done]. simpl.
  destruct (isSameDomain c abs); simpl; [f_equal|]; exact IH.
Qed.

Lemma link_target_base c c' parsedURL anchor :
  baseURL c' = baseURL c ->
  link_target c' parsedURL anchor = link_target c parsedURL anchor.
Proof.
  intros Hb. unfold link_target, isSameDomain. by rewrite Hb.
Qed.

Lemma crawl_step_from_page c0 g now c t c' st' spawned evs :
  baseURL c = baseURL c0 ->
  crawl_step g now c t = Some (c', st', spawned, evs) ->
  task_from_page c0 t ->
  Forall (page_from_site c0) (Pages (result c)) ->
  task_from_page c0 (at_stage t st')
  /\ Forall (task_from_page c0) spawned
  /\ Forall (page_from_site c0) (Pages (result c'))
  /\ Forall (fun t' => exists absoluteURL,
                 isSameDomain c0 absoluteURL = true
                 /\ pageURL t' = URL_String absoluteURL) spawned.
Proof.
  intros Hb H0 Ht Hp. unfold task_from_page in *.
  unfold crawl_step in H0.
  destruct (stage t) as [| | | |parsedURL resp doc rt pending links|] eqn:Hst.
  - break_in H0; simplify_eq; simpl; auto.
  - break_in H0; simplify_eq; simpl; auto.
  - simplify_eq; simpl; auto.
  - break_in H0; simplify_eq; simpl; repeat split; auto.
    by exists [].
  - destruct Ht as (Hparse & Hget & Hbody & seen & Hseen & Hlinks).
    destruct pending as [|anchor rest].
    + simplify_eq; simpl. repeat split; auto.
      apply Forall_app; split; [done|]. constructor; [|constructor].
      exists parsedURL, resp, doc. simpl.
      rewrite app_nil_r in Hseen. by rewrite Hseen.
    + rewrite (link_target_base c0 c) in H0 by done.
      assert (Hseen' : doc_anchors doc = (seen ++ [anchor]) ++ rest)
        by (by rewrite <- app_assoc).
      destruct (link_target c0 parsedURL anchor) as [nextURL|] eqn:Hlt.
      * assert (Hin : exists absoluteURL,
                   isSameDomain c0 absoluteURL = true
                   /\ nextURL = URL_String absoluteURL).
        { rewrite link_target_resolved in Hlt.
          destruct (resolved parsedURL anchor) as [abs|]; [|done].
          destruct (isSameDomain c0 abs) eqn:Hs; [|done].
          exists abs. split; [done | congruence]. }
        assert (Hl : links ++ [nextURL]
                     = omap (link_target c0 parsedURL) (seen ++ [anchor])).
        { rewrite omap_app. simpl. rewrite Hlt. by rewrite Hlinks. }
        destruct (isVisited c nextURL); simplify_eq; simpl;
          repeat split; eauto 10.
        all: repeat constructor; simpl; eauto.
      * simplify_eq; simpl. repeat split; auto.
        exists (seen ++ [anchor]). split; [done|].
        rewrite omap_app. simpl. rewrite Hlt. by rewrite app_nil_r.
  - discriminate.
Qed.

Lemma links_inv_step c0 g now s s' :
  links_inv c0 s -> step g now s = Some s' -> links_inv c0 s'.
Proof.
  intros (Hb & [Hpool Hpages] & Hscope) Hs.
  apply step_inv in Hs as (t & c' & st' & sp & evs & Hg & Hc & ->).
  pose proof (crawl_step_frame _ _ _ _ _ _ _ _ Hc) as (_ & Hb' & _).
  assert (Ht : task_from_page c0 t).
  { rewrite Forall_forall in Hpool. apply Hpool.
    by apply list_elem_of_lookup_2 in Hg. }
  destruct (crawl_step_from_page c0 _ _ _ _ _ _ _ _ Hb Hc Ht Hpages)
    as (H1 & H2 & H3 & H4).
  split; [simpl; congruence|]. split; [split; simpl|].
  - apply Forall_app; split; [|done]. by apply Forall_insert.
  - done.
  - intros i y Hi Hl. simpl in Hl.
    apply lookup_step_pool in Hl as [[-> ->] | [[_ Hl] | [_ Hl]]].
    + simpl. by apply (Hscope g t).
    + by apply (Hscope i).
    + rewrite Forall_forall in H4. by apply H4.
Qed.

Lemma links_inv_run c sched s :
  Pages (result c) = [] ->
  run sched (Start_spawn c) = Some s -> links_inv c s.
Proof.
  intros Hnil. apply (run_invariant (links_inv c)).
  - intros g now s0 s1. apply links_inv_step.
  - split; [done|]. split; [split; simpl|].
    + repeat constructor.
    + rewrite Hnil. constructor.
    + intros g t Hg Hl. simpl in Hl. destruct g; [lia | done].
Qed.

(** C2, as amended.  The links of a record are, in the order of the
    anchors, the discovered links of its page whose host is the seed's;
    a link to another host is not recorded, and no goroutine is started
    on one. *)
Theorem links_are_the_in_scope_links base limit rps t0 c sched s :
  NewCrawler base limit rps t0 = inr c ->
  run sched (Start_spawn c) = Some s ->
  Forall (fun p =>
            exists parsedURL resp doc,
              neturl_Parse (URL p) = inr parsedURL
              /\ http_Get (URL p) = Some resp
              /\ resp_Body resp = Some doc
              /\ Links p
                 = map URL_String
                       (in_scope_links c parsedURL (doc_anchors doc)))
         (Pages (result (crawler s)))
  /\ spawned_in_scope c s.
Proof.
  intros Hnew Hrun.
  apply NewCrawler_fresh in Hnew as (_ & _ & _ & Hres & _).
  assert (Hnil : Pages (result c) = []) by (by rewrite Hres).
  destruct (links_inv_run _ _ _ Hnil Hrun) as (_ & [_ Hp] & Hscope).
  split; [|done].
  eapply Forall_impl; [exact Hp|].
  intros p (parsedURL & resp & doc & H1 & H2 & H3 & _ & H5).
  exists parsedURL, resp, doc. by rewrite <- omap_link_target.
Qed.

End Scope.

(** ** Termination *)

Section Termination.

Context `{lib : GoLib} `{web : Web}.

Variable site : list string.

Lemma entry_weight_S bound m :
  entry_weight bound (S m)
  = (5 + bound * (1 + entry_weight bound m))%nat.
Proof. reflexivity. Qed.

Lemma entry_weight_pos bound n : (1 <= entry_weight bound n)%nat.
Proof. destruct n; simpl; lia. Qed.

Lemma entry_weight_mono bound m n :
  (m <= n)%nat -> (entry_weight bound m <= entry_weight bound n)%nat.
Proof.
  revert m. induction n as [|n IH]; intros m Hm.
  - by replace m with 0%nat by lia.
  - destruct m as [|m]; [apply entry_weight_pos|]. simpl.
    specialize (IH m ltac:(lia)). nia.
Qed.

Lemma links_weight_mono bound m n p q :
  (m <= n)%nat -> (p <= q)%nat ->
  (links_weight bound m p <= links_weight bound n q)%nat.
Proof.
  intros Hmn Hpq. unfold links_weight.
  pose proof (entry_weight_mono bound m n Hmn). nia.
Qed.

Lemma isVisited_mark c u v :
  isVisited (markVisited c u) v = (String.eqb v u || isVisited c v).
Proof.
  unfold isVisited, markVisited; simpl.
  destruct (String.eqb_spec v u) as [->|Hne].
  - by rewrite lookup_insert_eq.
  - by rewrite lookup_insert_ne.
Qed.

Lemma isVisited_addPageData c d v :
  isVisited (addPageData c d) v = isVisited c v.
Proof. reflexivity. Qed.

Lemma on_site_In u : on_site site u = true <-> In u site.
Proof.
  unfold on_site. rewrite existsb_exists. split.
  - intros (x & Hx & He). apply String.eqb_eq in He. by subst.
  - intros Hin. exists u. split; [done | apply String.eqb_refl].
Qed.

(** Marking never raises the count of unmarked URLs, and lowers it when
    the URL is an unmarked one of the site. *)
Lemma unvisited_mark_le c u (l : list string) :
  (length (List.filter (fun v => negb (isVisited (markVisited c u) v)) l)
   <= length (List.filter (fun v => negb (isVisited c v)) l))%nat.
Proof.
  induction l as [|v l IH]; simpl; [done|].
  rewrite isVisited_mark.
  destruct (String.eqb v u), (isVisited c v); simpl; lia.
Qed.

Lemma unvisited_mark_lt c u (l : list string) :
  In u l -> isVisited c u = false ->
  (length (List.filter (fun v => negb (isVisited (markVisited c u) v)) l)
   < length (List.filter (fun v => negb (isVisited c v)) l))%nat.
Proof.
  intros Hin Hu. induction l as [|v l IH]; simpl; [done|].
  rewrite isVisited_mark.
  pose proof (unvisited_mark_le c u l) as Hle.
  destruct (String.eqb_spec v u) as [->|Hne]; simpl.
  - rewrite Hu. simpl. lia.
  - destruct Hin as [->|Hin]; [done|]. specialize (IH Hin).
    destruct (isVisited c v); simpl; lia.
Qed.

Lemma unvisited_pos c u :
  on_site site u = true -> isVisited c u = false ->
  (1 <= unvisited site c)%nat.
Proof.
  rewrite on_site_In. intros Hin Hu. unfold unvisited.
  induction site as [|v l IH]; simpl; [done|].
  destruct Hin as [->|Hin].
  - rewrite Hu. simpl. lia.
  - specialize (IH Hin). destruct (isVisited c v); simpl; lia.
Qed.

Lemma anchors_on_bound u :
  on_site site u = true -> (anchors_on u <= out_bound site)%nat.
Proof.
  rewrite on_site_In. intros Hin. unfold out_bound.
  assert (Hall : Forall (fun k => (k <= list_max (map anchors_on site))%nat)
                        (map anchors_on site)).
  { by apply list_max_le. }
  rewrite Forall_forall in Hall. apply Hall.
  apply list_elem_of_In. by apply in_map.
Qed.

(** Marking a URL of the site makes no goroutine heavier. *)
Lemma task_weight_mark c u t :
  on_site site u = true ->
  (task_weight site (markVisited c u) t <= task_weight site c t)%nat.
Proof.
  intros Hu.
  pose proof (unvisited_mark_le c u site) as Hle.
  fold (unvisited site (markVisited c u)) in Hle.
  fold (unvisited site c) in Hle.
  assert (Ham : forall v,
             (after_mark site (markVisited c u) v
              <= after_mark site c v)%nat).
  { intros v. unfold after_mark. rewrite isVisited_mark.
    destruct (String.eqb_spec v u) as [->|Hne]; simpl.
    - destruct (isVisited c u) eqn:Hv; [done|].
      pose proof (unvisited_mark_lt c u site
                    (proj1 (on_site_In u) Hu) Hv) as Hlt.
      fold (unvisited site (markVisited c u)) in Hlt.
      fold (unvisited site c) in Hlt. lia.
    - destruct (isVisited c v); lia. }
  unfold task_weight. simpl.
  destruct (stage t); try lia.
  - rewrite isVisited_mark.
    destruct (maxDepth c <? depth t); simpl; [done|].
    destruct (String.eqb (pageURL t) u), (isVisited c (pageURL t)); simpl;
      try done; try apply entry_weight_pos.
    by apply entry_weight_mono.
  - specialize (Ham (pageURL t)).
    pose proof (links_weight_mono (out_bound site) _ _
                  (out_bound site) (out_bound site) Ham). lia.
  - specialize (Ham (pageURL t)).
    pose proof (links_weight_mono (out_bound site) _ _
                  (out_bound site) (out_bound site) Ham). lia.
  - pose proof (links_weight_mono (out_bound site) _ _
                  (out_bound site) (out_bound site) Hle). lia.
  - by apply links_weight_mono.
Qed.

(** Replacing one summand by a smaller one, with room for [k] more. *)
Lemma list_sum_insert_lt (f f' : Task -> nat) (l : list Task) g t t' k :
  l !! g = Some t ->
  (forall x, (f' x <= f x)%nat) ->
  (f' t' + k < f t)%nat ->
  (list_sum (map f' (<[g := t']> l)) + k < list_sum (map f l))%nat.
Proof.
  intros Hg Hle Hlt. revert g Hg.
  induction l as [|x l IH]; intros g Hg; [done|].
  destruct g as [|g]; simpl in *.
  - injection Hg as ->.
    assert (list_sum (map f' l) <= list_sum (map f l))%nat; [|lia].
    clear -Hle. induction l as [|y l IH]; simpl; [done|].
    specialize (Hle y). lia.
  - specialize (IH g Hg). specialize (Hle x). lia.
Qed.

Lemma closed_links c0 u parsedURL resp doc :
  closed_under_links site c0 = true ->
  on_site site u = true ->
  neturl_Parse u = inr parsedURL ->
  http_Get u = Some resp ->
  resp_Body resp = Some doc ->
  Forall (fun anchor =>
            forall nextURL,
              link_target c0 parsedURL anchor = Some nextURL ->
              on_site site nextURL = true)
         (doc_anchors doc).
Proof.
  unfold closed_under_links. rewrite forallb_forall.
  intros Hall Hu Hparse Hget Hbody.
  specialize (Hall u (proj1 (on_site_In u) Hu)).
  rewrite Hparse, Hget, Hbody, forallb_forall in Hall.
  apply Forall_forall. intros anchor Hin nextURL Hlt.
  specialize (Hall anchor (proj1 (list_elem_of_In _ _) Hin)).
  by rewrite Hlt in Hall.
Qed.

(** Unfolds the weights of the goal without unfolding the arithmetic. *)
Ltac weigh :=
  unfold task_weight, list_sum;
  cbn [stage at_stage pageURL depth fold_right map maxDepth markVisited
       addPageData set_result].

(** One step of a goroutine of the site: no goroutine gets heavier, and
    the one that moves loses more than the goroutines it starts weigh. *)
Lemma crawl_step_weight c0 g now c t c' st' spawned evs :
  closed_under_links site c0 = true ->
  baseURL c = baseURL c0 ->
  task_on_site site c0 t ->
  crawl_step g now c t = Some (c', st', spawned, evs) ->
  (forall x, (task_weight site c' x <= task_weight site c x)%nat)
  /\ (task_weight site c' (at_stage t st')
      + list_sum (map (task_weight site c') spawned)
      < task_weight site c t)%nat
  /\ task_on_site site c0 (at_stage t st')
  /\ Forall (task_on_site site c0) spawned.
Proof.
  intros Hclosed Hb [Hu Hst] H0.
  unfold crawl_step in H0. unfold task_on_site.
  remember (task_weight site c t) as w eqn:Hw.
  unfold task_weight in Hw.
  destruct (stage t) as [| | | |parsedURL resp doc rt pending links|] eqn:E.
  - (* entry *)
    destruct (maxDepth c <? depth t) eqn:Hdeep; simpl in *.
    { simplify_eq. weigh. repeat split; auto; lia. }
    destruct (isVisited c (pageURL t)) eqn:Hv; simplify_eq.
    { weigh. repeat split; auto; lia. }
    pose proof (unvisited_pos c' _ Hu Hv) as Hpos.
    weigh. unfold after_mark. rewrite Hv.
    destruct (unvisited site c') as [|m]; [lia|].
    rewrite entry_weight_S. unfold links_weight. cbn [pred].
    repeat split; auto; lia.
  - (* the tick *)
    break_in H0; simplify_eq. weigh. repeat split; auto; lia.
  - (* the mark *)
    simplify_eq. split; [intros x; by apply task_weight_mark|].
    weigh. unfold after_mark.
    assert (unvisited site (markVisited c (pageURL t))
            <= if isVisited c (pageURL t) then unvisited site c
               else pred (unvisited site c))%nat as Hle.
    { destruct (isVisited c (pageURL t)) eqn:Hv.
      - apply unvisited_mark_le.
      - pose proof (unvisited_mark_lt c _ site
                      (proj1 (on_site_In _) Hu) Hv) as Hlt.
        fold (unvisited site (markVisited c (pageURL t))) in Hlt.
        fold (unvisited site c) in Hlt. lia. }
    pose proof (links_weight_mono (out_bound site) _ _
                  (out_bound site) (out_bound site) Hle ltac:(lia)).
    repeat split; auto; lia.
  - (* the fetch *)
    pose proof (anchors_on_bound _ Hu) as Hbound.
    unfold anchors_on in Hbound.
    break_in H0; simplify_eq; weigh; repeat split; auto; try lia.
    + pose proof (links_weight_mono (out_bound site)
                    (unvisited site c') (unvisited site c')
                    _ _ ltac:(lia) Hbound). lia.
    + eapply closed_links; eauto.
  - (* the links *)
    destruct Hst as [Hlen Hall].
    destruct pending as [|anchor rest].
    { simplify_eq. weigh. unfold links_weight. cbn [length].
      repeat split; auto; lia. }
    apply Forall_cons in Hall as [Hhead Hall]. cbn [length] in Hlen.
    rewrite (link_target_base c0 c) in H0 by done.
    pose proof (entry_weight_pos (out_bound site) (unvisited site c)).
    destruct (link_target c0 parsedURL anchor) as [nextURL|] eqn:Hlt.
    + specialize (Hhead nextURL eq_refl).
      destruct (isVisited c nextURL) eqn:Hv; simplify_eq;
        weigh; rewrite ?Hv; unfold links_weight; cbn [length];
        repeat split; auto; try nia.
      * destruct (maxDepth c' <? Int64.wrap (depth t + 1)); cbn [orb]; nia.
      * repeat constructor; auto.
    + simplify_eq. weigh. unfold links_weight. cbn [length].
      repeat split; auto; nia.
  - discriminate.
Qed.

Lemma measure_step c0 g now s s' :
  closed_under_links site c0 = true ->
  site_inv site c0 s -> step g now s = Some s' ->
  site_inv site c0 s' /\ (measure site s' < measure site s)%nat.
Proof.
  intros Hclosed [Hb Hpool] Hs.
  apply step_inv in Hs as (t & c' & st' & sp & evs & Hg & Hc & ->).
  pose proof (crawl_step_frame _ _ _ _ _ _ _ _ Hc) as (_ & Hb' & _).
  assert (Ht : task_on_site site c0 t).
  { rewrite Forall_forall in Hpool. apply Hpool.
    by apply list_elem_of_lookup_2 in Hg. }
  destruct (crawl_step_weight _ _ _ _ _ _ _ _ _ Hclosed Hb Ht Hc)
    as (Hle & Hlt & Ht' & Hsp).
  split.
  - split; simpl; [congruence|].
    apply Forall_app; split; [|done]. by apply Forall_insert.
  - unfold measure; simpl. rewrite map_app, list_sum_app.
    by apply list_sum_insert_lt with (t := t).
Qed.

(** A run is no longer than the measure of the state it starts from. *)
Lemma measure_run c0 sched s s' :
  closed_under_links site c0 = true ->
  site_inv site c0 s -> run sched s = Some s' ->
  site_inv site c0 s'
  /\ (length sched + measure site s' <= measure site s)%nat.
Proof.
  intros Hclosed. revert s.
  induction sched as [|[g now] sched IH]; intros s Hinv Hrun; simpl in *.
  - injection Hrun as <-. split; [done | lia].
  - destruct (step g now s) as [s1|] eqn:Hs; [|discriminate].
    destruct (measure_step _ _ _ _ _ Hclosed Hinv Hs) as [Hinv1 Hlt].
    destruct (IH _ Hinv1 Hrun) as [Hinv' Hle]. split; [done | lia].
Qed.

Lemma site_inv_start c :
  on_site site (URL_String (baseURL c)) = true ->
  site_inv site c (Start_spawn c).
Proof. intros Hseed. split; [done|]. by repeat constructor. Qed.

Lemma measure_start c :
  (measure site (Start_spawn c)
   <= entry_weight (out_bound site) (length site))%nat.
Proof.
  unfold measure, Start_spawn, task_weight; simpl.
  rewrite Nat.add_0_r.
  destruct (_ || _); [apply entry_weight_pos|].
  apply entry_weight_mono. unfold unvisited. apply filter_length_le.
Qed.

End Termination.

(** ** The wait group, the visited map and the depths along a run *)

Section Liveness.

Context `{lib : GoLib} `{web : Web}.

Lemma live_count_app (l1 l2 : list Task) :
  live_count (l1 ++ l2) = (live_count l1 + live_count l2)%nat.
Proof. unfold live_count. by rewrite List.filter_app, length_app. Qed.

Lemma live_count_insert (l : list Task) g t t' :
  l !! g = Some t ->
  (live_count (<[g := t']> l) + (if live t then 1 else 0)
   = live_count l + (if live t' then 1 else 0))%nat.
Proof.
  revert g. induction l as [|x l IH]; intros g Hg; [done|].
  destruct g as [|g]; simpl in *.
  - injection Hg as ->. unfold live_count; simpl.
    destruct (live t), (live t'); simpl; lia.
  - specialize (IH g Hg). unfold live_count in *; simpl.
    destruct (live x); simpl; lia.
Qed.

(** A goroutine that moves was live, and those it starts are. *)
Lemma crawl_step_live g now c t c' st' spawned evs :
  crawl_step g now c t = Some (c', st', spawned, evs) ->
  live t = true /\ live_count spawned = length spawned.
Proof.
  intros H0. unfold live. crawl_cases H0; simpl; split; try done.
  all: match goal with H : stage _ = _ |- _ => by rewrite H end.
Qed.

Lemma wg_counts_step g now s s' :
  wg_counts s -> step g now s = Some s' -> wg_counts s'.
Proof.
  unfold wg_counts. intros Hwg Hs.
  apply step_inv in Hs as (t & c' & st' & sp & evs & Hg & Hc & ->).
  destruct (crawl_step_live _ _ _ _ _ _ _ _ Hc) as [Hlive Hsp].
  pose proof (live_count_insert _ _ _ (at_stage t st') Hg) as Hins.
  rewrite Hlive in Hins. simpl.
  rewrite live_count_app, Hsp, Hwg.
  unfold live in Hins at 1. simpl in Hins.
  destruct (is_Returned st'); simpl in Hins; lia.
Qed.

Lemma wg_counts_run c sched s :
  run sched (Start_spawn c) = Some s -> wg_counts s.
Proof.
  apply (run_invariant wg_counts).
  - intros g now s0 s1. apply wg_counts_step.
  - reflexivity.
Qed.

(** With a limiter that ticks, a goroutine that has not returned can
    move. *)
Lemma live_task_steps s g t now :
  rateLimiter (crawler s) <> None ->
  pool s !! g = Some t -> stage t <> Returned ->
  exists s', step g now s = Some s'.
Proof.
  intros Hlim Hg Hst. unfold step. rewrite Hg.
  destruct (crawl_step g now (crawler s) t) as [[[[c' st'] sp] evs]|] eqn:Hc;
    [eauto|].
  exfalso. unfold crawl_step in Hc.
  destruct (stage t) eqn:E; try done; break_in Hc; try discriminate.
  done.
Qed.

Lemma finished_or_live (p : list Task) :
  Forall (fun t => stage t = Returned) p
  \/ exists g t, p !! g = Some t /\ stage t <> Returned.
Proof.
  induction p as [|x p [IH | (g & t & Hg & Ht)]].
  - left. constructor.
  - destruct (stage x) eqn:E;
      try (right; exists 0%nat, x; split; [done | congruence]).
    left. by constructor.
  - right. by exists (S g), t.
Qed.

Lemma all_returned_count (p : list Task) :
  Forall (fun t => stage t = Returned) p -> live_count p = 0%nat.
Proof.
  induction 1 as [|x p Hx _ IH]; [done|].
  unfold live_count, live in *; simpl. by rewrite Hx.
Qed.

(** The visited map only grows. *)
Lemma visited_grows_step g now s s' u :
  step g now s = Some s' ->
  isVisited (crawler s) u = true -> isVisited (crawler s') u = true.
Proof.
  intros Hs Hu.
  apply step_inv in Hs as (t & c' & st' & sp & evs & Hg & Hc & ->).
  simpl. crawl_cases Hc; try done.
  unfold isVisited, markVisited in *; simpl.
  destruct (decide (pageURL t = u)) as [->|Hne].
  - by rewrite lookup_insert_eq.
  - by rewrite lookup_insert_ne.
Qed.

Lemma visited_grows_run sched s s' u :
  run sched s = Some s' ->
  isVisited (crawler s) u = true -> isVisited (crawler s') u = true.
Proof.
  revert s. induction sched as [|[g now] sched IH]; intros s Hrun Hu;
    simpl in Hrun.
  - by injection Hrun as <-.
  - destruct (step g now s) as [s1|] eqn:Hs; [|discriminate].
    eapply IH; [done|]. by eapply visited_grows_step.
Qed.

(** The depths. *)
Lemma depths_step g now s s' :
  records_ok s /\ depths_in_range s /\ spawn_depths s ->
  step g now s = Some s' ->
  records_ok s' /\ depths_in_range s' /\ spawn_depths s'.
Proof.
  intros (Hok & Hrange & Hspawn) Hs.
  split; [by eapply records_ok_step|].
  destruct Hok as [Hpool _].
  apply step_inv in Hs as (t & c' & st' & sp & evs & Hg & Hc & ->).
  pose proof (crawl_step_frame _ _ _ _ _ _ _ _ Hc) as (Hmd & _).
  assert (Ht : task_ok (maxDepth (crawler s)) t).
  { rewrite Forall_forall in Hpool. apply Hpool.
    by apply list_elem_of_lookup_2 in Hg. }
  assert (Htr : Int64.in_range (depth t)).
  { unfold depths_in_range in Hrange. rewrite Forall_forall in Hrange.
    apply Hrange. by apply list_elem_of_lookup_2 in Hg. }
  assert (Hnew : Forall (fun t' => Int64.in_range (depth t')) sp
                 /\ forall g' v d', EvSpawn g' v d' ∈ evs ->
                      g' = g /\ depth t <= maxDepth (crawler s)
                      /\ d' = Int64.wrap (depth t + 1)).
  { unfold task_ok in Ht.
    crawl_cases Hc;
      (split; [repeat first [apply Forall_nil_2
                            | apply Forall_cons_2; [apply wrap_in_range|]]|]);
      intros g' v d' Hin;
      repeat match goal with
             | H : _ ∈ [] |- _ => by apply elem_of_nil in H
             | H : _ ∈ _ :: _ |- _ =>
                 apply elem_of_cons in H as [H | H]; [discriminate H|]
             end.
    apply elem_of_cons in Hin as [Hin | Hin];
      [|by apply elem_of_nil in Hin].
    injection Hin as -> -> ->. tauto. }
  destruct Hnew as [Hsp Hevs]. split.
  - unfold depths_in_range; simpl.
    apply Forall_app; split; [|done]. by apply Forall_insert.
  - intros g' u d Hin. simpl in *.
    apply elem_of_app in Hin as [Hin | Hin].
    + destruct (Hspawn g' u d Hin) as (t0 & Hg' & Hle & Hd).
      destruct (decide (g' = g)) as [->|Hne].
      * exists (at_stage t st'). rewrite Hg in Hg'. injection Hg' as <-.
        split; [by eapply lookup_step_pool_self|]. simpl.
        split; [lia | done].
      * exists t0. split; [by apply lookup_step_pool_other|].
        split; [lia | done].
    + destruct (Hevs g' u d Hin) as (-> & Hle & Hd).
      exists (at_stage t st').
      split; [by eapply lookup_step_pool_self|]. simpl.
      split; [lia | done].
Qed.

Lemma depths_run c sched s :
  Pages (result c) = [] ->
  run sched (Start_spawn c) = Some s ->
  records_ok s /\ depths_in_range s /\ spawn_depths s.
Proof.
  intros Hnil.
  apply (run_invariant
           (fun s => records_ok s /\ depths_in_range s /\ spawn_depths s)).
  - intros g now s0 s1. apply depths_step.
  - split; [|split].
    + unfold records_ok, Start_spawn; simpl. rewrite Hnil.
      split; repeat constructor.
    + repeat constructor; unfold Int64.min_int, Int64.max_int; simpl; lia.
    + intros g u d Hin. by apply elem_of_nil in Hin.
Qed.

(** A goroutine whose entry check finds its URL marked returns without
    waiting for a tick. *)
Lemma marked_at_check_takes_no_tick g now c t :
  stage t = AtEntry ->
  isVisited c (pageURL t) = true ->
  exists evs,
    crawl_step g now c t = Some (c, Returned, [], evs)
    /\ forall g' u, EvTick g' u ∉ evs.
Proof.
  intros Hst Hv. unfold crawl_step. rewrite Hst, Hv.
  destruct (maxDepth c <? depth t); eexists; (split; [reflexivity|]);
    intros g' u Hin.
  - by apply elem_of_nil in Hin.
  - apply elem_of_cons in Hin as [Hin | Hin]; [discriminate|].
    by apply elem_of_nil in Hin.
Qed.

End Liveness.

Section Terminates.

Context `{lib : GoLib} `{web : Web}.

(** X13.  On a finite link graph, given as the list [site] of its URLs
    with the seed among them and every kept link of its pages in it, a
    run has at most [entry_weight (out_bound site) (length site)] steps,
    whatever the schedule and whether or not the graph has cycles.  Along
    the run the visited map only grows, and a goroutine that enters
    [crawl] on a marked URL returns without touching the crawler; a
    goroutine started by one at depth [d] is at depth [d + 1] (as machine
    integers, hence strictly deeper when the limit is below the largest
    integer); and while the limiter ticks, either every goroutine has
    returned and the counter of the wait group is zero, or some goroutine
    can move. *)
Theorem crawl_run_is_bounded site base limit rps t0 c sched s more s' :
  NewCrawler base limit rps t0 = inr c ->
  on_site site (URL_String (baseURL c)) = true ->
  closed_under_links site c = true ->
  run sched (Start_spawn c) = Some s ->
  run more s = Some s' ->
  (length sched + length more
   <= entry_weight (out_bound site) (length site))%nat
  /\ (forall u, isVisited (crawler s) u = true ->
                isVisited (crawler s') u = true)
  /\ (forall g now t,
        pool s' !! g = Some t -> stage t = AtEntry ->
        isVisited (crawler s') (pageURL t) = true ->
        exists s1, step g now s' = Some s1
                   /\ crawler s1 = crawler s'
                   /\ pool s1 = <[g := at_stage t Returned]> (pool s'))
  /\ (forall g u d, EvSpawn g u d ∈ log s' ->
        exists t, pool s' !! g = Some t
                  /\ depth t <= limit
                  /\ d = Int64.wrap (depth t + 1)
                  /\ (limit < Int64.max_int -> d = depth t + 1))
  /\ (rateLimiter c <> None ->
      finished s'
      \/ exists g, forall now, exists s1, step g now s' = Some s1).
Proof.
  intros Hnew Hseed Hclosed Hrun Hmore.
  apply NewCrawler_fresh in Hnew as (_ & Hmd & _ & Hres & _).
  assert (Hnil : Pages (result c) = []) by (by rewrite Hres).
  assert (Hall : run (sched ++ more) (Start_spawn c) = Some s')
    by (by rewrite run_app, Hrun).
  pose proof (run_frame _ _ _ Hall) as (Hmd' & _ & Hlim & _).
  split; [|split; [|split; [|split]]].
  - destruct (measure_run site c _ _ _ Hclosed
                (site_inv_start site c Hseed) Hall) as [_ Hle].
    pose proof (measure_start site c). rewrite length_app in Hle. lia.
  - intros u. by apply visited_grows_run with (sched := more).
  - intros g now t Hg Hst Hv. unfold step, crawl_step.
    rewrite Hg, Hst, Hv.
    destruct (maxDepth (crawler s') <? depth t);
      (eexists; split; [reflexivity|]; simpl; by rewrite app_nil_r).
  - intros g u d Hin.
    destruct (depths_run _ _ _ Hnil Hall) as (_ & Hrange & Hspawn).
    destruct (Hspawn g u d Hin) as (t & Hg & Hle & Hd).
    exists t. rewrite Hmd', Hmd in Hle. repeat split; try done.
    intros Hmax. rewrite Hd. apply wrap_id.
    unfold depths_in_range in Hrange. rewrite Forall_forall in Hrange.
    specialize (Hrange t (list_elem_of_lookup_2 _ _ _ Hg)).
    unfold Int64.in_range, Int64.min_int, Int64.max_int in *. lia.
  - intros Hlive.
    destruct (finished_or_live (pool s')) as [Hdone | (g & t & Hg & Ht)].
    + left. split; [|done].
      rewrite (wg_counts_run _ _ _ Hall).
      by rewrite all_returned_count.
    + right. exists g. intros now.
      apply (live_task_steps s' g t now); [congruence | done | done].
Qed.

End Terminates.

(** * More of [main.go]

    ** The visited map *)

Section Ledger.

Context `{lib : GoLib}.

(** X1.  After [markVisited c u], [isVisited] answers [true] at [u] and
    as before at any other URL; marking twice is marking once, marks of
    two URLs commute, and [len(c.visited)] grows by one exactly when the
    URL was not a key of the map. *)
Theorem mark_then_visited (c : Crawler) (u v : string) :
  (isVisited (markVisited c u) v = true
   <-> v = u \/ isVisited c v = true)
  /\ markVisited (markVisited c u) u = markVisited c u
  /\ markVisited (markVisited c u) v = markVisited (markVisited c v) u
  /\ visited_total (markVisited c u)
     = match visited c !! u with
       | Some _ => visited_total c
       | None => S (visited_total c)
       end.
Proof.
  split; [|split; [|split]].
  - rewrite isVisited_mark, orb_true_iff, String.eqb_eq. tauto.
  - unfold markVisited; simpl. by rewrite insert_insert_eq.
  - unfold markVisited; simpl. f_equal.
    destruct (decide (u = v)) as [->|Hne]; [done|].
    by apply insert_insert_ne.
  - unfold visited_total, markVisited; simpl.
    rewrite map_size_insert. by destruct (visited c !! u).
Qed.

End Ledger.

(** ** The wait group and [Start] *)

Section WaitGroup.

Context `{lib : GoLib} `{web : Web}.

Lemma live_task_counted (p : list Task) g t :
  p !! g = Some t -> stage t <> Returned -> (1 <= live_count p)%nat.
Proof.
  revert g. induction p as [|x p IH]; intros g Hg Hst; [done|].
  unfold live_count in *. destruct g as [|g]; simpl in *.
  - injection Hg as ->. unfold live. destruct (stage t); simpl; try lia.
    done.
  - specialize (IH g Hg Hst). destruct (live x); simpl; lia.
Qed.

Lemma returned_cannot_step (s : System) g now :
  Forall (fun t => stage t = Returned) (pool s) -> step g now s = None.
Proof.
  intros Hall. unfold step.
  destruct (pool s !! g) as [t|] eqn:Hg; [|done].
  rewrite Forall_forall in Hall.
  specialize (Hall t (list_elem_of_lookup_2 _ _ _ Hg)).
  unfold crawl_step. by rewrite Hall.
Qed.

Lemma counter_zero_iff_returned c sched s :
  run sched (Start_spawn c) = Some s ->
  (wg s = 0 <-> Forall (fun t => stage t = Returned) (pool s))
  /\ wg s = Z.of_nat (live_count (pool s)).
Proof.
  intros Hrun. pose proof (wg_counts_run _ _ _ Hrun) as Hwg.
  unfold wg_counts in Hwg. split; [|done]. split.
  - intros H0.
    destruct (finished_or_live (pool s)) as [Hall | (g & t & Hg & Ht)];
      [done|].
    pose proof (live_task_counted _ _ _ Hg Ht). lia.
  - intros Hall. by rewrite Hwg, all_returned_count.
Qed.

(** X2.  Along every run the counter of the wait group is the number of
    goroutines that have not returned: it is never negative, it is zero
    exactly when every goroutine started so far has returned, and from
    then on nothing moves any more. *)
Theorem wait_group_counts_live c sched s :
  run sched (Start_spawn c) = Some s ->
  wg s = Z.of_nat (live_count (pool s))
  /\ 0 <= wg s
  /\ (wg s = 0 <-> Forall (fun t => stage t = Returned) (pool s))
  /\ (wg s = 0 -> forall g now, step g now s = None).
Proof.
  intros Hrun.
  destruct (counter_zero_iff_returned c sched s Hrun) as [Hiff Hwg].
  split; [done|]. split; [lia|]. split; [done|].
  intros H0 g now. apply returned_cannot_step. by apply Hiff.
Qed.

(** X3.  [Start] saves the report only once every goroutine has
    returned.  The crawler it leaves is the one [saveResults] makes of
    the final state whatever becomes of the file: its records and its
    visited map are those of the run.  [Start] reports an error exactly
    when the file cannot be created or the encoding fails, and a failure
    to create the file is the one reported. *)
Theorem report_outlives_saving_errors c sched now ce ee c' err :
  Start c sched now ce ee = Some (c', err) ->
  exists s,
    run sched (Start_spawn c) = Some s
    /\ Forall (fun t => stage t = Returned) (pool s)
    /\ c' = fst (saveResults (crawler s) now None None)
    /\ Pages (result c') = Pages (result (crawler s))
    /\ visited c' = visited (crawler s)
    /\ (err = None <-> ce = None /\ ee = None)
    /\ (forall e, ce = Some e ->
          err = Some ("error saving results: "
                      +:+ ("error creating file: " +:+ e))%string)
    /\ (forall e, ce = None -> ee = Some e ->
          err = Some ("error saving results: "
                      +:+ ("error encoding JSON: " +:+ e))%string).
Proof.
  unfold Start. intros Hstart.
  destruct (run sched (Start_spawn c)) as [s|] eqn:Hrun; [|discriminate].
  destruct (wg s =? 0) eqn:Hwg; [|discriminate].
  apply Z.eqb_eq in Hwg.
  destruct (counter_zero_iff_returned c sched s Hrun) as [Hiff _].
  simpl in Hstart. injection Hstart as <- <-.
  exists s. split; [done|]. split; [by apply Hiff|].
  split; [done|]. split; [done|]. split; [done|].
  split; [|split].
  - destruct ce, ee; simpl; split; try done; by intros [? ?].
  - by intros e ->.
  - by intros e -> ->.
Qed.

End WaitGroup.

(** ** Ticks, requests and records *)

Section Counts.

Context `{lib : GoLib} `{web : Web}.

Lemma count_tasks_insert (f : Task -> bool) (l : list Task) g t t' :
  l !! g = Some t ->
  (count_tasks f (<[g := t']> l) + (if f t then 1 else 0)
   = count_tasks f l + (if f t' then 1 else 0))%nat.
Proof.
  revert g. induction l as [|x l IH]; intros g Hg; [done|].
  unfold count_tasks in *. destruct g as [|g]; simpl in *.
  - injection Hg as ->. destruct (f t), (f t'); simpl; lia.
  - specialize (IH g Hg). destruct (f x); simpl; lia.
Qed.

Lemma count_tasks_app (f : Task -> bool) (l1 l2 : list Task) :
  count_tasks f (l1 ++ l2) = (count_tasks f l1 + count_tasks f l2)%nat.
Proof. unfold count_tasks. by rewrite List.filter_app, length_app. Qed.

Lemma count_events_app (p : Event -> bool) (l1 l2 : list Event) :
  count_events p (l1 ++ l2) = (count_events p l1 + count_events p l2)%nat.
Proof. unfold count_events. by rewrite List.filter_app, length_app. Qed.

Lemma counts_ok_step g now s s' :
  counts_ok s -> step g now s = Some s' -> counts_ok s'.
Proof.
  intros (Hticks & Hreqs & Hpages) Hs.
  apply step_inv in Hs as (t & c' & st' & sp & evs & Hg & Hc & ->).
  pose proof (count_tasks_insert has_tick _ _ _ (at_stage t st') Hg) as H1.
  pose proof (count_tasks_insert in_link_loop _ _ _ (at_stage t st') Hg)
    as H2.
  unfold counts_ok; simpl.
  rewrite !count_tasks_app, !count_events_app.
  unfold has_tick, in_link_loop in H1, H2. simpl in H1, H2.
  crawl_cases Hc;
    repeat match goal with
           | H : stage t = _ |- _ => rewrite H in H1, H2
           end;
    unfold count_tasks, count_events, has_tick, in_link_loop in *;
    simpl in *; rewrite ?length_app; simpl; lia.
Qed.

(** X4.  Along every run, whatever the schedule, the number of calls of
    [http.Get] is at most the number of ticks received from the rate
    limiter, the number of records of the report is at most the number of
    calls of [http.Get], and each record was appended by one call of
    [addPageData]. *)
Theorem requests_paid_by_ticks base limit rps t0 c sched s :
  NewCrawler base limit rps t0 = inr c ->
  run sched (Start_spawn c) = Some s ->
  (length (Pages (result (crawler s))) = count_events is_store (log s)
   /\ count_events is_store (log s) <= count_events is_request (log s)
   /\ count_events is_request (log s) <= count_events is_tick (log s))%nat.
Proof.
  intros Hnew Hrun.
  apply NewCrawler_fresh in Hnew as (_ & _ & _ & Hres & _).
  assert (Hok : counts_ok s).
  { revert Hrun. apply (run_invariant counts_ok).
    - intros g now s0 s1. apply counts_ok_step.
    - unfold counts_ok; simpl. rewrite Hres. simpl.
      unfold count_events, count_tasks; simpl. lia. }
  destruct Hok as (H1 & H2 & H3). lia.
Qed.

End Counts.

(** ** What the visited map and the report hold *)

Section Contents.

Context `{lib : GoLib} `{web : Web}.

Lemma marked_urls_app (l1 l2 : list Event) :
  marked_urls (l1 ++ l2) = marked_urls l1 ++ marked_urls l2.
Proof. unfold marked_urls. apply omap_app. Qed.

Lemma stored_urls_app (l1 l2 : list Event) :
  stored_urls (l1 ++ l2) = stored_urls l1 ++ stored_urls l2.
Proof. unfold stored_urls. apply omap_app. Qed.

Lemma is_mark_of_marked u (l : list Event) :
  existsb (is_mark_of u) l = true <-> u ∈ marked_urls l.
Proof.
  induction l as [|e l IH]; simpl.
  - split; [done | by intros ?%elem_of_nil].
  - rewrite orb_true_iff, IH. unfold marked_urls; simpl.
    destruct e; simpl; try (split; [by intros [?|?] | by right]).
    rewrite elem_of_cons, String.eqb_eq. tauto.
Qed.

(** What a step adds to the log and to the visited map. *)
Lemma crawl_step_marks g now c t c' st' spawned evs :
  crawl_step g now c t = Some (c', st', spawned, evs) ->
  (c' = markVisited c (pageURL t) /\ evs = [EvMark g (pageURL t)]
   /\ stage t = AtMark)
  \/ (visited c' = visited c /\ marked_urls evs = []
      /\ (forall u, existsb (is_mark_of u) evs = false)
      /\ stage t <> AtMark).
Proof.
  intros H0. crawl_cases H0; auto;
    right; repeat split; try done; congruence.
Qed.

Lemma visited_ok_step g now s s' :
  visited_ok s
  /\ (visited_total (crawler s) <= length (marked_urls (log s)))%nat ->
  step g now s = Some s' ->
  visited_ok s'
  /\ (visited_total (crawler s') <= length (marked_urls (log s')))%nat.
Proof.
  intros [(Hmap & Hpool & Hpages & Hgets) Hsize] Hs.
  assert (Hmono : forall u, isVisited (crawler s) u = true ->
                            isVisited (crawler s') u = true)
    by (intros u; by apply (visited_grows_step g now)).
  apply step_inv in Hs as (t & c' & st' & sp & evs & Hg & Hc & ->).
  simpl in Hmono.
  assert (Ht : match stage t with
               | AtFetch | InLinks _ _ _ _ _ _ =>
                   isVisited (crawler s) (pageURL t) = true
               | _ => True
               end).
  { rewrite Forall_forall in Hpool.
    apply (Hpool t). by apply list_elem_of_lookup_2 in Hg. }
  split; [split; [|split; [|split]]|]; simpl.
  - (* the map *)
    intros u. rewrite existsb_app.
    destruct (crawl_step_marks _ _ _ _ _ _ _ _ Hc)
      as [(-> & -> & _) | (-> & _ & Hno & _)].
    + simpl. destruct (String.eqb_spec u (pageURL t)) as [->|Hne].
      * rewrite lookup_insert_eq. by rewrite orb_true_r.
      * rewrite lookup_insert_ne by done. rewrite Hmap.
        by rewrite !orb_false_r.
    + by rewrite Hmap, Hno, orb_false_r.
  - (* the goroutines *)
    apply Forall_app; split.
    + apply Forall_insert.
      * eapply Forall_impl; [exact Hpool|]. intros x Hx. simpl in Hx.
        destruct (stage x); try done; by apply Hmono.
      * crawl_cases Hc; simpl; auto.
        rewrite isVisited_mark, String.eqb_refl. done.
    + crawl_cases Hc; repeat constructor.
  - (* the records *)
    assert (Hold : Forall (fun p => isVisited c' (URL p) = true)
                          (Pages (result (crawler s))))
      by (eapply Forall_impl; [exact Hpages|]; intros p Hp; by apply Hmono).
    crawl_cases Hc; simpl; auto.
    apply Forall_app; split; [done|]. constructor; [|constructor]. simpl.
    by apply Hmono.
  - (* the requests *)
    intros g' u Hin. apply elem_of_app in Hin as [Hin | Hin].
    + apply Hmono. by apply (Hgets g').
    + crawl_cases Hc;
        repeat match goal with
               | H : _ ∈ [] |- _ => by apply elem_of_nil in H
               | H : _ ∈ _ :: _ |- _ =>
                   apply elem_of_cons in H as [H | H];
                   [try discriminate H|]
               end;
        injection Hin as -> ->; by apply Hmono.
  - (* the size *)
    rewrite marked_urls_app, length_app.
    destruct (crawl_step_marks _ _ _ _ _ _ _ _ Hc)
      as [(-> & -> & _) | (Hv & -> & _)].
    + unfold visited_total, markVisited in *; simpl.
      rewrite map_size_insert.
      destruct (visited (crawler s) !! pageURL t); simpl; lia.
    + unfold visited_total in *. rewrite Hv. simpl. lia.
Qed.

(** X5.  Along every run from a new crawler the visited map holds [true]
    at exactly the URLs that [markVisited] was called on, and nothing
    else; [len(c.visited)], the number [Start] prints, is at most the
    number of those calls; and no URL is requested or recorded without
    being marked. *)
Theorem visited_map_tracks_marks base limit rps t0 c sched s :
  NewCrawler base limit rps t0 = inr c ->
  run sched (Start_spawn c) = Some s ->
  (forall u b, visited (crawler s) !! u = Some b -> b = true)
  /\ dom (visited (crawler s))
     = (list_to_set (marked_urls (log s)) : gset string)
  /\ (visited_total (crawler s) <= length (marked_urls (log s)))%nat
  /\ Forall (fun p => isVisited (crawler s) (URL p) = true)
            (Pages (result (crawler s)))
  /\ (forall g u, EvGet g u ∈ log s ->
                  isVisited (crawler s) u = true).
Proof.
  intros Hnew Hrun.
  apply NewCrawler_fresh in Hnew as (Hv & _ & _ & Hres & _).
  assert (Hok : visited_ok s
                /\ (visited_total (crawler s)
                    <= length (marked_urls (log s)))%nat).
  { revert Hrun.
    apply (run_invariant
             (fun s => visited_ok s
                       /\ (visited_total (crawler s)
                           <= length (marked_urls (log s)))%nat)).
    - intros g now s0 s1. apply visited_ok_step.
    - unfold visited_ok, visited_total; simpl. rewrite Hv, Hres. simpl.
      repeat split; try done.
      + repeat constructor.
      + intros g u Hin. by apply elem_of_nil in Hin. }
  destruct Hok as [(Hmap & _ & Hpages & Hgets) Hsize].
  split; [|split; [|split; [|split]]]; try done.
  - intros u b Hu. rewrite Hmap in Hu.
    destruct (existsb _ _); congruence.
  - apply set_eq. intros u.
    rewrite elem_of_dom, elem_of_list_to_set, <- is_mark_of_marked, Hmap.
    destruct (existsb _ _); split; try done; by intros [? ?].
Qed.

(** What a step adds to the records. *)
Lemma crawl_step_stores g now c t c' st' spawned evs :
  crawl_step g now c t = Some (c', st', spawned, evs) ->
  exists added,
    Pages (result c') = Pages (result c) ++ added
    /\ map URL added = stored_urls evs.
Proof.
  intros H0. crawl_cases H0;
    try (exists []; simpl; by rewrite app_nil_r).
  eexists [_]. simpl. done.
Qed.

(** X6.  The report is only appended to: the records of a state are the
    first records of any later state, in the same order, and their URLs
    are, in order, those of the calls of [addPageData] in the log. *)
Theorem records_appended_in_order base limit rps t0 c sched s more s' :
  NewCrawler base limit rps t0 = inr c ->
  run sched (Start_spawn c) = Some s ->
  run more s = Some s' ->
  map URL (Pages (result (crawler s))) = stored_urls (log s)
  /\ Pages (result (crawler s)) `prefix_of` Pages (result (crawler s'))
  /\ log s `prefix_of` log s'.
Proof.
  intros Hnew Hrun Hmore.
  apply NewCrawler_fresh in Hnew as (_ & _ & _ & Hres & _).
  split.
  - revert Hrun.
    apply (run_invariant
             (fun s => map URL (Pages (result (crawler s)))
                       = stored_urls (log s))).
    + intros g now s0 s1 Hinv Hs.
      apply step_inv in Hs as (t & c' & st' & sp & evs & _ & Hc & ->).
      destruct (crawl_step_stores _ _ _ _ _ _ _ _ Hc) as (added & Hp & Ha).
      simpl. by rewrite Hp, map_app, stored_urls_app, Hinv, Ha.
    + simpl. by rewrite Hres.
  - clear Hrun. revert s Hmore.
    induction more as [|[g now] more IH]; intros s Hmore; simpl in Hmore.
    + by injection Hmore as <-.
    + destruct (step g now s) as [s1|] eqn:Hs; [|discriminate].
      destruct (IH _ Hmore) as [Hp Hl].
      apply step_inv in Hs as (t & c' & st' & sp & evs & _ & Hc & ->).
      destruct (crawl_step_stores _ _ _ _ _ _ _ _ Hc) as (added & Ha & _).
      simpl in *. rewrite Ha in Hp. split.
      * etrans; [|exact Hp]. by apply prefix_app_r.
      * etrans; [|exact Hl]. by apply prefix_app_r.
Qed.

End Contents.

(** ** The log of one goroutine *)

Section Traces.

Context `{lib : GoLib} `{web : Web}.

Lemma events_of_app g (l1 l2 : list Event) :
  events_of g (l1 ++ l2) = events_of g l1 ++ events_of g l2.
Proof. unfold events_of. apply List.filter_app. Qed.

Lemma events_of_own g (l : list Event) :
  Forall (fun e => event_of e = g) l -> events_of g l = l.
Proof.
  induction 1 as [|e l He _ IH]; [done|].
  unfold events_of in *; simpl. rewrite He, Nat.eqb_refl. by rewrite IH.
Qed.

Lemma events_of_other g i (l : list Event) :
  i <> g -> Forall (fun e => event_of e = g) l -> events_of i l = [].
Proof.
  intros Hne. induction 1 as [|e l He _ IH]; [done|].
  unfold events_of in *; simpl. rewrite He.
  destruct (Nat.eqb_spec g i); [congruence | done].
Qed.

Lemma spawns_of_app g (l1 l2 : list Event) :
  spawns_of g l1 -> spawns_of g l2 -> spawns_of g (l1 ++ l2).
Proof. unfold spawns_of. intros. by apply Forall_app. Qed.

(** A step of [crawl] extends the trace of its goroutine as the stage
    reached says, logs events of that goroutine only and starts
    goroutines at the entry of [crawl]. *)
Lemma crawl_step_trace g now c t c' st' spawned evs tr :
  crawl_step g now c t = Some (c', st', spawned, evs) ->
  trace_at g t tr ->
  trace_at g (at_stage t st') (tr ++ evs)
  /\ Forall (fun e => event_of e = g) evs
  /\ Forall (fun t' => stage t' = AtEntry) spawned.
Proof.
  intros H0 Htr. unfold trace_at in *. simpl.
  unfold crawl_step in H0.
  destruct (stage t) as [| | | |parsedURL resp doc rt pending links|] eqn:E.
  - subst tr. break_in H0; simplify_eq; simpl;
      (split; [|split; repeat constructor]);
      first [done | by left | by (right; left)].
  - subst tr. break_in H0; simplify_eq; simpl.
    split; [done|]. split; repeat constructor.
  - subst tr. simplify_eq; simpl.
    split; [done|]. split; repeat constructor.
  - subst tr. break_in H0; simplify_eq; simpl;
      (split; [|split; repeat constructor]);
      first [ by (do 2 right; left) | by (do 3 right; left) | idtac ].
    exists []. split; [constructor | done].
  - destruct Htr as (sp0 & Hsp & ->).
    destruct pending as [|anchor rest].
    + simplify_eq; simpl. split; [|split; repeat constructor].
      do 4 right. exists sp0. split; [done|]. reflexivity.
    + break_in H0; simplify_eq; simpl;
        (split; [|split; repeat constructor]).
      * exists sp0. by rewrite app_nil_r.
      * exists (sp0 ++ [EvSpawn g s (Int64.wrap (depth t + 1))]).
        split; [|simpl; by rewrite <- ?app_assoc].
        apply spawns_of_app; [done|]. repeat constructor. eauto.
      * exists sp0. by rewrite app_nil_r.
  - discriminate.
Qed.

Lemma traces_ok_step g now s s' :
  traces_ok s -> step g now s = Some s' -> traces_ok s'.
Proof.
  intros Hinv Hs.
  apply step_inv in Hs as (t & c' & st' & sp & evs & Hg & Hc & ->).
  pose proof (Hinv g) as Hgt. rewrite Hg in Hgt.
  destruct (crawl_step_trace _ _ _ _ _ _ _ _ _ Hc Hgt)
    as (Htr & Hown & Hentry).
  apply lookup_lt_Some in Hg as Hlt.
  intros i. simpl. rewrite events_of_app.
  destruct (decide (i = g)) as [->|Hne].
  - erewrite lookup_step_pool_self by done.
    by rewrite (events_of_own g evs).
  - rewrite (events_of_other g i evs) by done. rewrite app_nil_r.
    specialize (Hinv i).
    destruct (pool s !! i) as [x|] eqn:Hi.
    + by erewrite lookup_step_pool_other.
    + rewrite Hinv.
      destruct ((<[g:=at_stage t st']> (pool s) ++ sp) !! i) as [y|] eqn:Hy;
        [|done].
      apply lookup_step_pool in Hy as [[-> _] | [[_ Hy] | [_ Hy]]];
        [done | congruence |].
      rewrite Forall_forall in Hentry. unfold trace_at.
      by rewrite (Hentry y Hy).
Qed.

(** X7.  In every run, whatever the schedule, the events of one goroutine
    come in the order of the body of [crawl]: either the single check
    that finds its URL visited, or a beginning of
    check, tick, mark, request, goroutines started, record.  So a
    goroutine takes one tick at most, before its one request, and its
    record comes last. *)
Theorem goroutine_trace_shape c sched s g t :
  run sched (Start_spawn c) = Some s ->
  pool s !! g = Some t ->
  events_of g (log s) = [EvCheck g (pageURL t) true]
  \/ exists spawned,
       spawns_of g spawned
       /\ events_of g (log s) `prefix_of` full_trace g (pageURL t) spawned.
Proof.
  intros Hrun Hg.
  assert (Hok : traces_ok s).
  { revert Hrun. apply (run_invariant traces_ok).
    - intros i now s0 s1. apply traces_ok_step.
    - intros i. simpl. destruct i as [|[|i]]; simpl; done. }
  specialize (Hok g). rewrite Hg in Hok. unfold trace_at in Hok.
  unfold full_trace.
  destruct (stage t);
    try (right; exists []; split; [constructor|]; rewrite Hok;
         eexists; simpl; reflexivity).
  - destruct Hok as (sp & Hsp & ->). right. exists sp. split; [done|].
    exists [EvStore g (pageURL t)]. by rewrite <- !app_assoc.
  - destruct Hok as [-> | [-> | [-> | [-> | (sp & Hsp & ->)]]]].
    + right. exists []. split; [constructor|]. eexists; simpl; reflexivity.
    + by left.
    + right. exists []. split; [constructor|]. eexists; simpl; reflexivity.
    + right. exists []. split; [constructor|]. eexists; simpl; reflexivity.
    + right. exists sp. split; [done|]. exists []. by rewrite app_nil_r.
Qed.

End Traces.

(** ** What the checks of the visited map answered *)

Section Answers.

Context `{lib : GoLib} `{web : Web}.

(** A step logs one event at most, decided on the visited map as it
    stood. *)
Lemma crawl_step_answers g now c t c' st' spawned evs :
  crawl_step g now c t = Some (c', st', spawned, evs) ->
  evs = [] \/ exists e, evs = [e] /\ answered_by (isVisited c) e.
Proof.
  intros H0. crawl_cases H0; auto; right; eexists; split; try done; done.
Qed.

Lemma answers_ok_step g now s s' :
  (forall u, isVisited (crawler s) u = existsb (is_mark_of u) (log s)) ->
  answers_ok s -> step g now s = Some s' -> answers_ok s'.
Proof.
  intros Hmap Hinv Hs.
  apply step_inv in Hs as (t & c' & st' & sp & evs & _ & Hc & ->).
  destruct (crawl_step_answers _ _ _ _ _ _ _ _ Hc)
    as [-> | (e' & -> & He')]; intros l1 e l2; simpl.
  - rewrite app_nil_r. apply Hinv.
  - destruct l2 as [|x l2 _] using rev_ind.
    + intros [Hl <-]%app_inj_tail. simpl in Hl. subst l1.
      destruct e'; simpl in *; try done; by rewrite <- Hmap.
    + change (l1 ++ e :: l2 ++ [x]) with (l1 ++ (e :: l2) ++ [x]).
      rewrite app_assoc. intros [Hl _]%app_inj_tail. by apply (Hinv _ _ l2).
Qed.

(** X8.  Every check of the visited map was answered by the calls of
    [markVisited] made before it: the check at the entry of [crawl] finds
    the URL visited exactly when it was marked earlier in the run, and the
    link loop starts a goroutine only on a URL that no goroutine had
    marked yet. *)
Theorem checks_answered_by_earlier_marks base limit rps t0 c sched s
    l1 e l2 :
  NewCrawler base limit rps t0 = inr c ->
  run sched (Start_spawn c) = Some s ->
  log s = l1 ++ e :: l2 ->
  (forall g u seen, e = EvCheck g u seen ->
     (seen = true <-> u ∈ marked_urls l1))
  /\ (forall g u d, e = EvSpawn g u d -> u ∉ marked_urls l1).
Proof.
  intros Hnew Hrun Hlog.
  apply NewCrawler_fresh in Hnew as (Hv & _ & _ & Hres & _).
  assert (Hok : (visited_ok s
                 /\ (visited_total (crawler s)
                     <= length (marked_urls (log s)))%nat)
                /\ answers_ok s).
  { revert Hrun.
    apply (run_invariant
             (fun s => (visited_ok s
                        /\ (visited_total (crawler s)
                            <= length (marked_urls (log s)))%nat)
                       /\ answers_ok s)).
    - intros g now s0 s1 [Hvis Hans] Hs. split.
      + by apply (visited_ok_step g now s0).
      + apply (answers_ok_step g now s0); [|done..].
        intros u. destruct Hvis as [(Hmap & _) _].
        unfold isVisited. rewrite Hmap. by destruct (existsb _ _).
    - split; [split|].
      + unfold visited_ok; simpl. rewrite Hv, Hres. simpl.
        repeat split; try done.
        * repeat constructor.
        * intros g u Hin. by apply elem_of_nil in Hin.
      + unfold visited_total; simpl. rewrite Hv. done.
      + intros k1 e1 k2 Hk. simpl in Hk. by destruct k1. }
  destruct Hok as [_ Hans]. specialize (Hans _ _ _ Hlog).
  split.
  - intros g u seen ->. simpl in Hans. rewrite <- is_mark_of_marked.
    by rewrite Hans.
  - intros g u d ->. simpl in Hans. rewrite <- is_mark_of_marked.
    by rewrite Hans.
Qed.

End Answers.

(** ** The depths *)

Section Depths.

Context `{lib : GoLib} `{web : Web}.

(** What a step of a goroutine at depth zero or more starts and records. *)
Lemma crawl_step_depths g now c t c' st' spawned evs :
  crawl_step g now c t = Some (c', st', spawned, evs) ->
  task_ok (maxDepth c) t ->
  maxDepth c < Int64.max_int ->
  0 <= depth t ->
  Forall (fun t' => 1 <= depth t' <= maxDepth c + 1) spawned
  /\ exists added,
       Pages (result c') = Pages (result c) ++ added
       /\ Forall (fun p => Depth p = depth t /\ URL p = pageURL t
                           /\ depth t <= maxDepth c) added.
Proof.
  intros H0 Ht Hmax Hpos. unfold task_ok in Ht.
  crawl_cases H0;
    try (split; [apply Forall_nil_2 | exists []; split;
                                        [by rewrite app_nil_r
                                        | apply Forall_nil_2]]).
  - split; [apply Forall_nil_2|]. eexists [_]. split; [done|].
    apply Forall_cons_2; [simpl; tauto | apply Forall_nil_2].
  - split; [|exists []; split; [by rewrite app_nil_r | apply Forall_nil_2]].
    apply Forall_cons_2; [|apply Forall_nil_2]. simpl.
    rewrite wrap_id
      by (unfold Int64.in_range, Int64.min_int, Int64.max_int in *; lia).
    lia.
Qed.

Lemma depths_ok_step seed limit g now s s' :
  limit < Int64.max_int ->
  records_ok s /\ maxDepth (crawler s) = limit /\ depths_ok seed limit s ->
  step g now s = Some s' ->
  records_ok s' /\ maxDepth (crawler s') = limit /\ depths_ok seed limit s'.
Proof.
  intros Hmax (Hok & Hmd & (st & H0) & Hkids & Hpages) Hs.
  split; [by eapply records_ok_step|].
  destruct Hok as [Hpool _].
  apply step_inv in Hs as (t & c' & st' & sp & evs & Hg & Hc & ->).
  pose proof (crawl_step_frame _ _ _ _ _ _ _ _ Hc) as (Hmd' & _).
  simpl. split; [congruence|].
  assert (Ht : task_ok (maxDepth (crawler s)) t).
  { rewrite Forall_forall in Hpool. apply Hpool.
    by apply list_elem_of_lookup_2 in Hg. }
  assert (Hd : 0 <= depth t /\ (depth t = 0 -> pageURL t = seed)).
  { destruct g as [|g].
    - rewrite H0 in Hg. injection Hg as <-. simpl. split; [lia | done].
    - specialize (Hkids (S g) t ltac:(lia) Hg). split; lia. }
  destruct Hd as [Hpos Hseed].
  destruct (crawl_step_depths _ _ _ _ _ _ _ _ Hc Ht ltac:(lia) Hpos)
    as (Hsp & added & Hadd & Hnew).
  rewrite Hmd in Hsp, Hnew.
  split; [|split]; simpl.
  - destruct g as [|g].
    + exists st'. erewrite lookup_step_pool_self by done.
      rewrite H0 in Hg. by injection Hg as <-.
    + exists st. by apply lookup_step_pool_other.
  - intros i y Hi Hy.
    apply lookup_step_pool in Hy as [[-> ->] | [[_ Hy] | [_ Hy]]].
    + simpl. by apply (Hkids g t).
    + by apply (Hkids i y).
    + rewrite Forall_forall in Hsp. by apply Hsp.
  - rewrite Hadd. apply Forall_app; split; [done|].
    eapply Forall_impl; [exact Hnew|]. intros p (Hp & Hu & Hle); simpl.
    split; [lia|]. intros Hz. rewrite Hu. apply Hseed. lia.
Qed.

Lemma depths_ok_run c sched s :
  Pages (result c) = [] ->
  maxDepth c < Int64.max_int ->
  run sched (Start_spawn c) = Some s ->
  depths_ok (URL_String (baseURL c)) (maxDepth c) s.
Proof.
  intros Hnil Hmax Hrun.
  assert (Hall : records_ok s /\ maxDepth (crawler s) = maxDepth c
                 /\ depths_ok (URL_String (baseURL c)) (maxDepth c) s);
    [|tauto].
  revert Hrun.
  apply (run_invariant
           (fun s => records_ok s /\ maxDepth (crawler s) = maxDepth c
                     /\ depths_ok (URL_String (baseURL c)) (maxDepth c) s)).
  - intros g now s0 s1. by apply depths_ok_step.
  - split; [|split; [done|]].
    + unfold records_ok, Start_spawn; simpl. rewrite Hnil.
      split; repeat constructor.
    + unfold depths_ok; simpl. rewrite Hnil. split; [by eexists|].
      split; [|constructor].
      intros [|[|g]] t Hg Ht; [lia | done..].
Qed.

(** X9.  With a depth limit below the largest integer, the first goroutine
    stays on the seed at depth 0, every goroutine started by the link loop
    is at a depth between 1 and one past the limit, and every record has a
    depth between 0 and the limit ([depth+1] never wraps around); the only
    URL recorded at depth 0 is the seed's. *)
Theorem depths_count_from_seed base limit rps t0 c sched s :
  NewCrawler base limit rps t0 = inr c ->
  limit < Int64.max_int ->
  run sched (Start_spawn c) = Some s ->
  (exists st,
      pool s !! 0%nat
      = Some {| pageURL := URL_String (baseURL c); depth := 0;
                stage := st |})
  /\ (forall g t, (0 < g)%nat -> pool s !! g = Some t ->
        1 <= depth t <= limit + 1)
  /\ Forall (fun p => 0 <= Depth p <= limit
                      /\ (Depth p = 0 -> URL p = URL_String (baseURL c)))
            (Pages (result (crawler s))).
Proof.
  intros Hnew Hmax Hrun.
  apply NewCrawler_fresh in Hnew as (_ & Hmd & _ & Hres & _).
  assert (Hnil : Pages (result c) = []) by (by rewrite Hres).
  rewrite <- Hmd in Hmax |- *.
  exact (depths_ok_run _ _ _ Hnil Hmax Hrun).
Qed.

End Depths.

(** ** Crawlers that fetch nothing *)

Section Degenerate.

Context `{lib : GoLib} `{web : Web}.

(** X10.  When [1000/requestsPerSecond], as a whole number of
    milliseconds, is not positive, [time.Tick] gives the nil channel, and
    with a depth limit of zero or more the crawl comes to a stop at its
    first receive: the first goroutine checks the seed and nothing can
    move after that.  No URL is marked, requested or recorded, the counter
    of the wait group stays at one, and [Start] never gets past
    [wg.Wait()]. *)
Theorem nil_limiter_blocks_crawl base limit rps t0 c sched s :
  NewCrawler base limit rps t0 = inr c ->
  tick_duration rps <= 0 ->
  0 <= limit ->
  run sched (Start_spawn c) = Some s ->
  rateLimiter c = None
  /\ (length sched <= 1)%nat
  /\ wg s = 1
  /\ visited (crawler s) = ∅
  /\ Pages (result (crawler s)) = []
  /\ (log s = [] \/ log s = [EvCheck 0 (URL_String (baseURL c)) false])
  /\ (forall now ce ee, Start c sched now ce ee = None).
Proof.
  intros Hnew Hrps Hlim Hrun.
  apply NewCrawler_fresh in Hnew as (Hv & Hmd & Hrl & Hres & _).
  assert (Hnil : rateLimiter c = None).
  { rewrite Hrl. unfold Time.Tick.
    by destruct (Z.leb_spec (tick_duration rps) 0); [|lia]. }
  assert (Hdeep : (maxDepth c <? 0) = false) by (apply Z.ltb_ge; lia).
  assert (Hseed : isVisited c (URL_String (baseURL c)) = false)
    by (unfold isVisited; by rewrite Hv).
  assert (Hshape : (length sched <= 1)%nat /\ wg s = 1
                   /\ crawler s = c
                   /\ (log s = []
                       \/ log s = [EvCheck 0 (URL_String (baseURL c))
                                           false])).
  { destruct sched as [|[g now] rest]; simpl in Hrun.
    - injection Hrun as <-. simpl. auto.
    - destruct g as [|g]; [|done].
      unfold step, crawl_step in Hrun. simpl in Hrun.
      rewrite Hdeep, Hseed in Hrun. simpl in Hrun.
      destruct rest as [|[g' now'] rest]; simpl in Hrun.
      + injection Hrun as <-. simpl. auto.
      + destruct g' as [|g']; [|done].
        unfold step, crawl_step in Hrun. simpl in Hrun.
        by rewrite Hnil in Hrun. }
  destruct Hshape as (Hlen & Hwg & Hc & Hlog).
  split; [done|]. split; [done|]. split; [done|].
  rewrite Hc, Hres. split; [done|]. split; [done|]. split; [done|].
  intros now ce ee. unfold Start. by rewrite Hrun, Hwg.
Qed.

(** X11.  With a negative depth limit the first call of [crawl] returns
    at its depth test: a run is that one step at most, it logs nothing and
    leaves the crawler as [NewCrawler] made it, and [Start] saves a report
    with no page and an empty visited map. *)
Theorem negative_limit_empty_report base limit rps t0 c :
  NewCrawler base limit rps t0 = inr c ->
  limit < 0 ->
  (forall sched s,
      run sched (Start_spawn c) = Some s ->
      (length sched <= 1)%nat /\ crawler s = c /\ log s = []
      /\ wg s = 1 - Z.of_nat (length sched))
  /\ (forall now t1 ce ee,
        exists c' err,
          Start c [(0%nat, now)] t1 ce ee = Some (c', err)
          /\ Pages (result c') = []
          /\ TotalPages (result c') = 0
          /\ EndTime (result c') = t1
          /\ visited c' = ∅).
Proof.
  intros Hnew Hlim.
  apply NewCrawler_fresh in Hnew as (Hv & Hmd & _ & Hres & _).
  assert (Hdeep : (maxDepth c <? 0) = true) by (apply Z.ltb_lt; lia).
  split.
  - intros sched s Hrun.
    destruct sched as [|[g now] rest]; simpl in Hrun.
    + injection Hrun as <-. simpl. auto.
    + destruct g as [|g]; [|done].
      unfold step, crawl_step in Hrun. simpl in Hrun.
      rewrite Hdeep in Hrun. simpl in Hrun.
      destruct rest as [|[g' now'] rest]; simpl in Hrun.
      * injection Hrun as <-. simpl. auto.
      * by destruct g' as [|g'].
  - intros now t1 ce ee. unfold Start, run, step, crawl_step. simpl.
    rewrite Hdeep. simpl. do 2 eexists. split; [reflexivity|].
    simpl. by rewrite Hres, Hv.
Qed.

End Degenerate.

(** ** The program *)

Section Program.

Context `{lib : GoLib} `{web : Web}.

Lemma BaseURL_run c sched s :
  run sched (Start_spawn c) = Some s ->
  BaseURL (result (crawler s)) = BaseURL (result c).
Proof.
  apply (run_invariant
           (fun s => BaseURL (result (crawler s)) = BaseURL (result c)));
    [|done].
  intros g now s0 s1 Hinv Hs.
  apply step_inv in Hs as (t & c' & st' & sp & evs & _ & Hc & ->).
  apply crawl_step_frame in Hc as (_ & _ & _ & Hb & _). simpl. congruence.
Qed.

(** X12.  The crawl that [main] starts, with its depth limit of 3 and its
    two requests a second: the limiter ticks every 500 milliseconds, so no
    goroutine waits on it for ever, and in every state reached either
    every goroutine has returned or some goroutine can move; the first
    goroutine is on the seed as [url.Parse] and [String] give it back,
    while the report names the seed as it was typed; and every record is
    at a depth from 0 to 3. *)
Theorem main_crawl_keeps_moving input now s0 sched s :
  main input now = inr s0 ->
  run sched s0 = Some s ->
  rateLimiter (crawler s) = Some (500 * Time.Millisecond)
  /\ maxDepth (crawler s) = 3
  /\ BaseURL (result (crawler s)) = input
  /\ (exists u st,
        neturl_Parse input = inr u
        /\ pool s !! 0%nat
           = Some {| pageURL := URL_String u; depth := 0; stage := st |})
  /\ Forall (fun p => 0 <= Depth p <= 3) (Pages (result (crawler s)))
  /\ (Forall (fun t => stage t = Returned) (pool s)
      \/ exists g, forall now', exists s1, step g now' s = Some s1).
Proof.
  unfold main. intros Hmain Hrun.
  destruct (NewCrawler input 3 (Float64.of_Z 2) now) as [err|c] eqn:Hnew;
    [discriminate|].
  injection Hmain as <-.
  apply NewCrawler_fresh in Hnew as (_ & Hmd & Hrl & Hres & Hparse).
  assert (Hnil : Pages (result c) = []) by (by rewrite Hres).
  pose proof (run_frame _ _ _ Hrun) as (Hmd' & _ & Hrl' & _).
  assert (Hlim : rateLimiter (crawler s) = Some (500 * Time.Millisecond))
    by (by rewrite Hrl', Hrl).
  assert (Hmax : maxDepth c < Int64.max_int)
    by (rewrite Hmd; unfold Int64.max_int; lia).
  destruct (depths_ok_run _ _ _ Hnil Hmax Hrun) as ((st & H0) & _ & Hp).
  split; [done|]. split; [congruence|].
  split; [by rewrite (BaseURL_run _ _ _ Hrun), Hres|].
  split; [by exists (baseURL c), st|].
  split.
  - eapply Forall_impl; [exact Hp|]. intros p [Hd _]. simpl in Hd. lia.
  - destruct (finished_or_live (pool s)) as [Hall | (g & t & Hg & Ht)];
      [by left | right].
    exists g. intros now'. apply (live_task_steps s g t); [|done..].
    by rewrite Hlim.
Qed.

End Program.

(** ** What becomes of the links kept *)

Section Keys.

Context `{lib : GoLib} `{web : Web}.








End Keys.

(** ** The crawler on the small sites *)

Import Fixture.

Lemma ran_default {A : Type} (o : option A) (d : A) :
  ran o = true -> o = Some (default d o).
Proof. by destruct o. Qed.

(** C1, where the code departs from it.  On [dup.test] the page A carries
    the link to B twice.  Both links are followed, because B is only
    marked after a tick; the two goroutines on B pass the visited check
    one after the other, and B is requested twice and recorded twice. *)
Lemma repeated_link_fetched_twice :
  option_map
    (fun s => (wg s, fetches "http://dup.test/b" (log s),
               map URL (Pages (result (crawler s)))))
    (go "http://dup.test/" 3
        [0; 0; 0; 0; 0; 0; 0; 1; 2; 1; 2; 1; 2; 1; 2; 1; 2]%nat)
  = Some (0, 2%nat,
          ["http://dup.test/"; "http://dup.test/b";
           "http://dup.test/b"]%string).
Proof. vm_compute. reflexivity. Qed.

(** C3, where the code departs from it.  The first goroutine on
    [dup.test] has taken its tick while its URL is still unmarked: the
    mark comes after the tick.  And a goroutine that passed the check
    takes a tick for a URL that has been marked in the meantime. *)
Lemma tick_taken_before_mark :
  option_map
    (fun s => (log s, isVisited (crawler s) "http://dup.test/"))
    (go "http://dup.test/" 3 [0; 0]%nat)
  = Some ([EvCheck 0 "http://dup.test/" false;
           EvTick 0 "http://dup.test/"], false)
  /\ option_map
       (fun s => (isVisited (crawler s) "http://dup.test/b",
                  stage (task_at s 2),
                  option_map (fun s' => drop (length (log s)) (log s'))
                             (step 2 7000 s)))
       (go "http://dup.test/" 3 [0; 0; 0; 0; 0; 0; 0; 1; 2; 1; 1]%nat)
     = Some (true, AtLimiter, Some [EvTick 2 "http://dup.test/b"]).
Proof. split; vm_compute; reflexivity. Qed.

(** C6, where the code departs from it.  On [dup.test], a finite link
    graph, the run that crawls everything marks B a second time when B is
    already in the visited map: the map is entered again for a URL it
    holds.  And at 2000 requests a second, on the finite link graph of
    [scope.test], the limiter is the nil channel: after the check of the
    seed the one goroutine there is waits on it, nothing can move, and the
    counter of the wait group stays at one, so that the crawl never comes
    to its end. *)
Lemma crawl_marks_again_and_stalls :
  option_map
    (fun s => (wg s, marked_urls (log s), visited_total (crawler s)))
    (go "http://dup.test/" 3
        [0; 0; 0; 0; 0; 0; 0; 1; 2; 1; 2; 1; 2; 1; 2; 1; 2]%nat)
  = Some (0, ["http://dup.test/"; "http://dup.test/b";
              "http://dup.test/b"]%string, 2%nat)
  /\ NewCrawler "http://scope.test/" 3 (Float64.of_Z 2000) 1000 = inr hasty
  /\ on_site ["http://scope.test/"; "http://scope.test/b"]%string
             (URL_String (baseURL hasty)) = true
  /\ closed_under_links ["http://scope.test/"; "http://scope.test/b"]%string
                        hasty = true
  /\ option_map
       (fun s => (wg s, map stage (pool s), log s))
       (run [(0%nat, 1500)] (Start_spawn hasty))
     = Some (1, [AtLimiter], [EvCheck 0 "http://scope.test/" false])
  /\ (forall g now,
        option_map (step g now) (run [(0%nat, 1500)] (Start_spawn hasty))
        = Some None).
Proof.
  split; [vm_compute; reflexivity|]. split; [vm_compute; reflexivity|].
  split; [vm_compute; reflexivity|]. split; [vm_compute; reflexivity|].
  split; [vm_compute; reflexivity|].
  intros [|g] now; reflexivity.
Qed.

(** On [scope.test] the page A links to B on its own host and to C on
    another host.  Both are discovered links, and the record of A lists B
    only. *)
Lemma scope_site_record :
  http_Get "http://scope.test/"
  = Some (page "A" [Some "/b"; Some "http://other.test/c"]%string)
  /\ option_map
       (fun parsedURL =>
          map URL_String
              (discovered_links parsedURL
                 [Some "/b"; Some "http://other.test/c"]%string))
       (match neturl_Parse "http://scope.test/" with
        | inr parsedURL => Some parsedURL
        | inl _ => None
        end)
     = Some ["http://scope.test/b"; "http://other.test/c"]%string
  /\ option_map
       (fun s => map (fun p => (URL p, Links p))
                     (Pages (result (crawler s))))
       (go "http://scope.test/" 3 scope_seed_steps)
     = Some [("http://scope.test/", ["http://scope.test/b"])]%string.
Proof. repeat split; vm_compute; reflexivity. Qed.

(** C2, the claim refuted.  After the run that records the page A of
    [scope.test], the records do not all list every discovered link of
    their page: the link to C is missing from the record of A. *)
Lemma out_of_scope_link_not_recorded :
  ~ Forall lists_discovered_links
           (Pages (result (crawler
              (state_after "http://scope.test/" 3 scope_seed_steps)))).
Proof.
  assert (Hp : Pages (result (crawler
                 (state_after "http://scope.test/" 3 scope_seed_steps)))
               = [ {| URL := "http://scope.test/"; Title := "A";
                      Links := ["http://scope.test/b"]%string; Depth := 0;
                      CrawledAt := 4500; ResponseTime := 120;
                      StatusCode := 200 |} ])
    by (vm_compute; reflexivity).
  rewrite Hp. intros Hall.
  apply Forall_cons in Hall
    as [(parsedURL & resp & doc & H1 & H2 & H3 & H4) _].
  vm_compute in H1. injection H1 as <-.
  vm_compute in H2. injection H2 as <-.
  vm_compute in H3. injection H3 as <-.
  vm_compute in H4. discriminate H4.
Qed.

(** C9, the claim refuted.  [foo] is not a parseable absolute URL: it
    parses, but as a relative reference.  [NewCrawler] accepts it all the
    same and [main] starts a goroutine on it. *)
Lemma relative_seed_starts_a_crawl :
  ~ (exists u, neturl_Parse "foo" = inr u /\ URL_IsAbs u = true)
  /\ exists c,
       NewCrawler "foo" 3 (Float64.of_Z 2) 1000 = inr c
       /\ main "foo" 1000 = inr (Start_spawn c)
       /\ pool (Start_spawn c)
          = [ {| pageURL := "foo"; depth := 0; stage := AtEntry |} ].
Proof.
  split.
  - intros (u & Hparse & Habs).
    vm_compute in Hparse. injection Hparse as <-.
    vm_compute in Habs. discriminate Habs.
  - eexists. split; [vm_compute; reflexivity|].
    split; vm_compute; reflexivity.
Qed.

(** [:foo] does not parse (the scheme is missing): no crawler, and [main]
    starts nothing. *)
Lemma unparseable_seed_starts_nothing :
  match neturl_Parse ":foo", main ":foo" 1000 with
  | inl _, inl _ => True
  | _, _ => False
  end.
Proof. vm_compute. exact I. Qed.

(** *** Strings of URLs that differ in the query or in the fragment *)






(** On [q.test] the four links to [/p], two with different queries and
    two with different fragments, are requested one by one. *)
Lemma variants_fetched_separately :
  option_map
    (fun s => (map (fun u => fetches u (log s))
                   ["http://q.test/p?x=1"; "http://q.test/p?x=2";
                    "http://q.test/p#s1"; "http://q.test/p#s2"]%string,
               length (Pages (result (crawler s)))))
    (go "http://q.test/" 3
        [0; 0; 0; 0; 0; 0; 0; 0; 0; 0; 0; 0;
         1; 1; 1; 1; 1; 2; 2; 2; 2; 2;
         3; 3; 3; 3; 3; 4; 4; 4; 4; 4]%nat)
  = Some ([1; 1; 1; 1]%nat, 5%nat).
Proof. vm_compute. reflexivity. Qed.

(** *** Links that differ in the query or in the fragment *)

Section Variants.

Context {w : Web}.


End Variants.

(** *** The theorems at work *)

Lemma state_after_run seed limit gs :
  ran (run (clocked gs) (Start_spawn (crawler_on seed limit))) = true ->
  run (clocked gs) (Start_spawn (crawler_on seed limit))
  = Some (state_after seed limit gs).
Proof. apply ran_default. Qed.

Lemma task_at_pool (s : System) g :
  ran (pool s !! g) = true -> pool s !! g = Some (task_at s g).
Proof. apply ran_default. Qed.

(** C4 on [scope.test] with a depth limit of zero, when the seed has been
    recorded and the goroutine on B is about to enter [crawl] at depth 1:
    one record, and that goroutine returns without touching anything. *)
Lemma depth_limit_respected_witness :
  NewCrawler "http://scope.test/" 0 (Float64.of_Z 2) 1000
  = inr (crawler_on "http://scope.test/" 0)
  /\ run (clocked scope_seed_steps)
         (Start_spawn (crawler_on "http://scope.test/" 0))
     = Some (state_after "http://scope.test/" 0 scope_seed_steps)
  /\ (length (Pages (result (crawler
        (state_after "http://scope.test/" 0 scope_seed_steps)))) <= 1)%nat
  /\ step 1 5000 (state_after "http://scope.test/" 0 scope_seed_steps)
     = Some {| crawler :=
                 crawler (state_after "http://scope.test/" 0
                                      scope_seed_steps);
               wg := wg (state_after "http://scope.test/" 0
                                     scope_seed_steps) - 1;
               pool := <[1%nat := at_stage
                                    (task_at (state_after
                                                "http://scope.test/" 0
                                                scope_seed_steps) 1)
                                    Returned]>
                         (pool (state_after "http://scope.test/" 0
                                            scope_seed_steps));
               log := log (state_after "http://scope.test/" 0
                                       scope_seed_steps) |}.
Proof.
  assert (H1 : NewCrawler "http://scope.test/" 0 (Float64.of_Z 2) 1000
               = inr (crawler_on "http://scope.test/" 0))
    by (vm_compute; reflexivity).
  assert (H2 : run (clocked scope_seed_steps)
                   (Start_spawn (crawler_on "http://scope.test/" 0))
               = Some (state_after "http://scope.test/" 0 scope_seed_steps))
    by (apply ran_default; vm_compute; reflexivity).
  destruct (depth_limit_respected _ _ _ _ _ _ _ H1 H2) as (_ & Hnoop & Hone).
  split; [exact H1|]. split; [exact H2|].
  split; [exact (proj1 (Hone eq_refl))|].
  apply Hnoop.
  - apply ran_default. vm_compute. reflexivity.
  - vm_compute. reflexivity.
  - vm_compute. reflexivity.
Defined.

(** C5 on [err.test], when the goroutine on the page that answers 500 is
    about to request it: the records all have status 200 and that
    goroutine returns, the crawler as it was. *)
Lemma only_status_200_recorded_witness :
  NewCrawler "http://err.test/" 3 (Float64.of_Z 2) 1000
  = inr (crawler_on "http://err.test/" 3)
  /\ run (clocked err_steps) (Start_spawn (crawler_on "http://err.test/" 3))
     = Some (state_after "http://err.test/" 3 err_steps)
  /\ Forall (fun p => StatusCode p = 200)
            (Pages (result (crawler
               (state_after "http://err.test/" 3 err_steps))))
  /\ exists s',
       step 1 7000 (state_after "http://err.test/" 3 err_steps) = Some s'
       /\ crawler s' = crawler (state_after "http://err.test/" 3 err_steps)
       /\ pool s'
          = <[1%nat := at_stage
                        (task_at (state_after "http://err.test/" 3
                                              err_steps) 1)
                        Returned]>
              (pool (state_after "http://err.test/" 3 err_steps)).
Proof.
  assert (H1 : NewCrawler "http://err.test/" 3 (Float64.of_Z 2) 1000
               = inr (crawler_on "http://err.test/" 3))
    by (vm_compute; reflexivity).
  assert (H2 : run (clocked err_steps)
                   (Start_spawn (crawler_on "http://err.test/" 3))
               = Some (state_after "http://err.test/" 3 err_steps))
    by (apply state_after_run; vm_compute; reflexivity).
  destruct (only_status_200_recorded _ _ _ _ _ _ _ H1 H2) as [Hok Hfail].
  split; [exact H1|]. split; [exact H2|]. split; [exact Hok|].
  apply Hfail.
  - apply task_at_pool. vm_compute. reflexivity.
  - vm_compute. reflexivity.
  - right. exists (status_only 500). split; [vm_compute; reflexivity|].
    left. vm_compute. discriminate.
Defined.

Lemma ran_default_pair {A B : Type} (o : option (A * B)) (d : A * B) :
  ran o = true -> o = Some (fst (default d o), snd (default d o)).
Proof. by destruct o as [[a b]|]. Qed.

(** C8 on [scope.test], the report saved at time 9000. *)
Lemma report_totals_and_times_witness :
  NewCrawler "http://scope.test/" 0 (Float64.of_Z 2) 1000
  = inr (crawler_on "http://scope.test/" 0)
  /\ Start (crawler_on "http://scope.test/" 0) (clocked scope_steps)
           9000 None None
     = Some (fst scope_saved, snd scope_saved)
  /\ 1000 <= 9000
  /\ TotalPages (result (fst scope_saved))
     = Z.of_nat (length (Pages (result (fst scope_saved)))).
Proof.
  assert (H1 : NewCrawler "http://scope.test/" 0 (Float64.of_Z 2) 1000
               = inr (crawler_on "http://scope.test/" 0))
    by (vm_compute; reflexivity).
  assert (H2 : Start (crawler_on "http://scope.test/" 0)
                     (clocked scope_steps) 9000 None None
               = Some (fst scope_saved, snd scope_saved))
    by (apply ran_default_pair; vm_compute; reflexivity).
  assert (H3 : 1000 <= 9000) by lia.
  split; [exact H1|]. split; [exact H2|]. split; [exact H3|].
  exact (proj1 (report_totals_and_times _ _ _ _ _ _ _ _ _ _ _ H1 H2 H3)).
Defined.

(** C7 at two requests a second, the rate [main] asks for. *)
Lemma period_is_whole_milliseconds_witness :
  NewCrawler "http://scope.test/" 0 (Float64.of_Z 2) 1000
  = inr (crawler_on "http://scope.test/" 0)
  /\ Float64.trunc (Float64.div (Float64.of_Z 1000) (Float64.of_Z 2))
     = Some 500
  /\ 1 <= 500 <= Int64.max_int / Time.Millisecond
  /\ rateLimiter (crawler_on "http://scope.test/" 0)
     = Some (500 * Time.Millisecond).
Proof.
  assert (H1 : NewCrawler "http://scope.test/" 0 (Float64.of_Z 2) 1000
               = inr (crawler_on "http://scope.test/" 0))
    by (vm_compute; reflexivity).
  assert (H2 : Float64.trunc
                 (Float64.div (Float64.of_Z 1000) (Float64.of_Z 2))
               = Some 500)
    by (vm_compute; reflexivity).
  assert (H3 : 1 <= 500 <= Int64.max_int / Time.Millisecond)
    by (vm_compute; split; discriminate).
  split; [exact H1|]. split; [exact H2|]. split; [exact H3|].
  exact (proj1 (period_is_whole_milliseconds _ _ _ _ _ _ H1 H2 H3)).
Defined.

(** C2 on [scope.test]. *)
Lemma links_are_the_in_scope_links_witness :
  NewCrawler "http://scope.test/" 0 (Float64.of_Z 2) 1000
  = inr (crawler_on "http://scope.test/" 0)
  /\ run (clocked scope_steps)
         (Start_spawn (crawler_on "http://scope.test/" 0))
     = Some (state_after "http://scope.test/" 0 scope_steps)
  /\ spawned_in_scope (crawler_on "http://scope.test/" 0)
                      (state_after "http://scope.test/" 0 scope_steps).
Proof.
  assert (H1 : NewCrawler "http://scope.test/" 0 (Float64.of_Z 2) 1000
               = inr (crawler_on "http://scope.test/" 0))
    by (vm_compute; reflexivity).
  assert (H2 : run (clocked scope_steps)
                   (Start_spawn (crawler_on "http://scope.test/" 0))
               = Some (state_after "http://scope.test/" 0 scope_steps))
    by (apply state_after_run; vm_compute; reflexivity).
  split; [exact H1|]. split; [exact H2|].
  exact (proj2 (links_are_the_in_scope_links _ _ _ _ _ _ _ H1 H2)).
Defined.

(** X13 on [cycle.test], where A links to B and B links to A: the run of
    twelve steps that crawls both pages is within the bound. *)
Lemma crawl_run_is_bounded_witness :
  NewCrawler "http://cycle.test/a" 3 (Float64.of_Z 2) 1000
  = inr (crawler_on "http://cycle.test/a" 3)
  /\ on_site cycle_site
             (URL_String (baseURL (crawler_on "http://cycle.test/a" 3)))
     = true
  /\ closed_under_links cycle_site (crawler_on "http://cycle.test/a" 3)
     = true
  /\ run (clocked cycle_steps)
         (Start_spawn (crawler_on "http://cycle.test/a" 3))
     = Some (state_after "http://cycle.test/a" 3 cycle_steps)
  /\ run (clocked cycle_more)
         (state_after "http://cycle.test/a" 3 cycle_steps)
     = Some (default (Start_spawn blank)
               (run (clocked cycle_more)
                    (state_after "http://cycle.test/a" 3 cycle_steps)))
  /\ (length (clocked cycle_steps) + length (clocked cycle_more)
      <= entry_weight (out_bound cycle_site) (length cycle_site))%nat.
Proof.
  assert (H1 : NewCrawler "http://cycle.test/a" 3 (Float64.of_Z 2) 1000
               = inr (crawler_on "http://cycle.test/a" 3))
    by (vm_compute; reflexivity).
  assert (H2 : on_site cycle_site
                 (URL_String (baseURL (crawler_on "http://cycle.test/a" 3)))
               = true)
    by (vm_compute; reflexivity).
  assert (H3 : closed_under_links cycle_site
                 (crawler_on "http://cycle.test/a" 3) = true)
    by (vm_compute; reflexivity).
  assert (H4 : run (clocked cycle_steps)
                   (Start_spawn (crawler_on "http://cycle.test/a" 3))
               = Some (state_after "http://cycle.test/a" 3 cycle_steps))
    by (apply state_after_run; vm_compute; reflexivity).
  assert (H5 : run (clocked cycle_more)
                   (state_after "http://cycle.test/a" 3 cycle_steps)
               = Some (default (Start_spawn blank)
                         (run (clocked cycle_more)
                            (state_after "http://cycle.test/a" 3
                                         cycle_steps))))
    by (apply ran_default; vm_compute; reflexivity).
  split; [exact H1|]. split; [exact H2|]. split; [exact H3|].
  split; [exact H4|]. split; [exact H5|].
  exact (proj1 (crawl_run_is_bounded _ _ _ _ _ _ _ _ _ _ H1 H2 H3 H4 H5)).
Defined.


(** ** The further properties on the small sites *)

(** X2 on [scope.test], when the seed has been recorded and the goroutine
    on B has returned at its depth test. *)
Lemma wait_group_counts_live_witness :
  run (clocked scope_steps)
      (Start_spawn (crawler_on "http://scope.test/" 0))
  = Some (state_after "http://scope.test/" 0 scope_steps)
  /\ wg (state_after "http://scope.test/" 0 scope_steps)
     = Z.of_nat (live_count
                   (pool (state_after "http://scope.test/" 0 scope_steps)))
  /\ 0 <= wg (state_after "http://scope.test/" 0 scope_steps).
Proof.
  assert (H2 : run (clocked scope_steps)
                   (Start_spawn (crawler_on "http://scope.test/" 0))
               = Some (state_after "http://scope.test/" 0 scope_steps))
    by (apply state_after_run; vm_compute; reflexivity).
  destruct (wait_group_counts_live _ _ _ H2) as (Hwg & Hpos & _).
  split; [exact H2|]. split; [exact Hwg | exact Hpos].
Defined.

(** X3 on [scope.test], when the file of the report cannot be created. *)
Lemma report_outlives_saving_errors_witness :
  Start (crawler_on "http://scope.test/" 0) (clocked scope_steps) 9000
        (Some "permission denied"%string) None
  = Some (fst (default (blank, None)
                 (Start (crawler_on "http://scope.test/" 0)
                        (clocked scope_steps) 9000
                        (Some "permission denied"%string) None)),
          snd (default (blank, None)
                 (Start (crawler_on "http://scope.test/" 0)
                        (clocked scope_steps) 9000
                        (Some "permission denied"%string) None)))
  /\ snd (default (blank, None)
            (Start (crawler_on "http://scope.test/" 0)
                   (clocked scope_steps) 9000
                   (Some "permission denied"%string) None))
     = Some ("error saving results: "
             +:+ ("error creating file: " +:+ "permission denied"))%string.
Proof.
  assert (H1 : Start (crawler_on "http://scope.test/" 0)
                     (clocked scope_steps) 9000
                     (Some "permission denied"%string) None
               = Some (fst (default (blank, None)
                              (Start (crawler_on "http://scope.test/" 0)
                                     (clocked scope_steps) 9000
                                     (Some "permission denied"%string)
                                     None)),
                       snd (default (blank, None)
                              (Start (crawler_on "http://scope.test/" 0)
                                     (clocked scope_steps) 9000
                                     (Some "permission denied"%string)
                                     None))))
    by (apply ran_default_pair; vm_compute; reflexivity).
  destruct (report_outlives_saving_errors _ _ _ _ _ _ _ H1)
    as (s & _ & _ & _ & _ & _ & _ & Hcreate & _).
  split; [exact H1|]. exact (Hcreate _ eq_refl).
Defined.

(** X4 on [dup.test], when B has been requested twice. *)
Lemma requests_paid_by_ticks_witness :
  NewCrawler "http://dup.test/" 3 (Float64.of_Z 2) 1000
  = inr (crawler_on "http://dup.test/" 3)
  /\ run (clocked [0; 0; 0; 0; 0; 0; 0; 1; 2; 1; 2; 1; 2; 1; 2]%nat)
         (Start_spawn (crawler_on "http://dup.test/" 3))
     = Some (state_after "http://dup.test/" 3
               [0; 0; 0; 0; 0; 0; 0; 1; 2; 1; 2; 1; 2; 1; 2]%nat)
  /\ (count_events is_request
        (log (state_after "http://dup.test/" 3
                [0; 0; 0; 0; 0; 0; 0; 1; 2; 1; 2; 1; 2; 1; 2]%nat))
      <= count_events is_tick
           (log (state_after "http://dup.test/" 3
                   [0; 0; 0; 0; 0; 0; 0; 1; 2; 1; 2; 1; 2; 1; 2]%nat)))%nat.
Proof.
  assert (H1 : NewCrawler "http://dup.test/" 3 (Float64.of_Z 2) 1000
               = inr (crawler_on "http://dup.test/" 3))
    by (vm_compute; reflexivity).
  assert (H2 : run (clocked [0; 0; 0; 0; 0; 0; 0; 1; 2; 1; 2; 1; 2; 1; 2]%nat)
                   (Start_spawn (crawler_on "http://dup.test/" 3))
               = Some (state_after "http://dup.test/" 3
                         [0; 0; 0; 0; 0; 0; 0; 1; 2; 1; 2; 1; 2; 1; 2]%nat))
    by (apply state_after_run; vm_compute; reflexivity).
  split; [exact H1|]. split; [exact H2|].
  exact (proj2 (proj2 (requests_paid_by_ticks _ _ _ _ _ _ _ H1 H2))).
Defined.

(** X5 on [err.test], when the page that answers 500 is about to be
    requested. *)
Lemma visited_map_tracks_marks_witness :
  NewCrawler "http://err.test/" 3 (Float64.of_Z 2) 1000
  = inr (crawler_on "http://err.test/" 3)
  /\ run (clocked err_steps) (Start_spawn (crawler_on "http://err.test/" 3))
     = Some (state_after "http://err.test/" 3 err_steps)
  /\ (visited_total (crawler (state_after "http://err.test/" 3 err_steps))
      <= length (marked_urls
                   (log (state_after "http://err.test/" 3 err_steps))))%nat.
Proof.
  assert (H1 : NewCrawler "http://err.test/" 3 (Float64.of_Z 2) 1000
               = inr (crawler_on "http://err.test/" 3))
    by (vm_compute; reflexivity).
  assert (H2 : run (clocked err_steps)
                   (Start_spawn (crawler_on "http://err.test/" 3))
               = Some (state_after "http://err.test/" 3 err_steps))
    by (apply state_after_run; vm_compute; reflexivity).
  split; [exact H1|]. split; [exact H2|].
  exact (proj1 (proj2 (proj2
           (visited_map_tracks_marks _ _ _ _ _ _ _ H1 H2)))).
Defined.

(** X6 on [cycle.test]: the record of A, made in the first six steps, is
    the first record after the six steps that record B. *)
Lemma records_appended_in_order_witness :
  NewCrawler "http://cycle.test/a" 3 (Float64.of_Z 2) 1000
  = inr (crawler_on "http://cycle.test/a" 3)
  /\ run (clocked cycle_steps)
         (Start_spawn (crawler_on "http://cycle.test/a" 3))
     = Some (state_after "http://cycle.test/a" 3 cycle_steps)
  /\ run (clocked cycle_more)
         (state_after "http://cycle.test/a" 3 cycle_steps)
     = Some (default (Start_spawn blank)
               (run (clocked cycle_more)
                    (state_after "http://cycle.test/a" 3 cycle_steps)))
  /\ Pages (result (crawler
              (state_after "http://cycle.test/a" 3 cycle_steps)))
     `prefix_of`
     Pages (result (crawler
              (default (Start_spawn blank)
                 (run (clocked cycle_more)
                      (state_after "http://cycle.test/a" 3 cycle_steps))))).
Proof.
  assert (H1 : NewCrawler "http://cycle.test/a" 3 (Float64.of_Z 2) 1000
               = inr (crawler_on "http://cycle.test/a" 3))
    by (vm_compute; reflexivity).
  assert (H2 : run (clocked cycle_steps)
                   (Start_spawn (crawler_on "http://cycle.test/a" 3))
               = Some (state_after "http://cycle.test/a" 3 cycle_steps))
    by (apply state_after_run; vm_compute; reflexivity).
  assert (H3 : run (clocked cycle_more)
                   (state_after "http://cycle.test/a" 3 cycle_steps)
               = Some (default (Start_spawn blank)
                         (run (clocked cycle_more)
                            (state_after "http://cycle.test/a" 3
                                         cycle_steps))))
    by (apply ran_default; vm_compute; reflexivity).
  split; [exact H1|]. split; [exact H2|]. split; [exact H3|].
  exact (proj1 (proj2
           (records_appended_in_order _ _ _ _ _ _ _ _ _ H1 H2 H3))).
Defined.

(** X7 on [err.test], for the goroutine on the page that answers 500. *)
Lemma goroutine_trace_shape_witness :
  run (clocked err_steps) (Start_spawn (crawler_on "http://err.test/" 3))
  = Some (state_after "http://err.test/" 3 err_steps)
  /\ pool (state_after "http://err.test/" 3 err_steps) !! 1%nat
     = Some (task_at (state_after "http://err.test/" 3 err_steps) 1)
  /\ (events_of 1 (log (state_after "http://err.test/" 3 err_steps))
      = [EvCheck 1 (pageURL (task_at (state_after "http://err.test/" 3
                                                  err_steps) 1)) true]
      \/ exists spawned,
           spawns_of 1 spawned
           /\ events_of 1 (log (state_after "http://err.test/" 3 err_steps))
              `prefix_of`
              full_trace 1 (pageURL (task_at (state_after
                                                "http://err.test/" 3
                                                err_steps) 1))
                         spawned).
Proof.
  assert (H1 : run (clocked err_steps)
                   (Start_spawn (crawler_on "http://err.test/" 3))
               = Some (state_after "http://err.test/" 3 err_steps))
    by (apply state_after_run; vm_compute; reflexivity).
  assert (H2 : pool (state_after "http://err.test/" 3 err_steps) !! 1%nat
               = Some (task_at (state_after "http://err.test/" 3 err_steps)
                               1))
    by (apply task_at_pool; vm_compute; reflexivity).
  split; [exact H1|]. split; [exact H2|].
  exact (goroutine_trace_shape _ _ _ _ _ H1 H2).
Defined.

(** X8 on [scope.test]: the goroutine on B was started when nothing but
    the seed had been marked. *)
Lemma checks_answered_by_earlier_marks_witness :
  NewCrawler "http://scope.test/" 0 (Float64.of_Z 2) 1000
  = inr (crawler_on "http://scope.test/" 0)
  /\ run (clocked scope_steps)
         (Start_spawn (crawler_on "http://scope.test/" 0))
     = Some (state_after "http://scope.test/" 0 scope_steps)
  /\ log (state_after "http://scope.test/" 0 scope_steps)
     = take 4 (log (state_after "http://scope.test/" 0 scope_steps))
       ++ EvSpawn 0 "http://scope.test/b" 1
       :: drop 5 (log (state_after "http://scope.test/" 0 scope_steps))
  /\ "http://scope.test/b"%string
     ∉ marked_urls
         (take 4 (log (state_after "http://scope.test/" 0 scope_steps))).
Proof.
  assert (H1 : NewCrawler "http://scope.test/" 0 (Float64.of_Z 2) 1000
               = inr (crawler_on "http://scope.test/" 0))
    by (vm_compute; reflexivity).
  assert (H2 : run (clocked scope_steps)
                   (Start_spawn (crawler_on "http://scope.test/" 0))
               = Some (state_after "http://scope.test/" 0 scope_steps))
    by (apply state_after_run; vm_compute; reflexivity).
  assert (H3 : log (state_after "http://scope.test/" 0 scope_steps)
               = take 4 (log (state_after "http://scope.test/" 0
                                          scope_steps))
                 ++ EvSpawn 0 "http://scope.test/b" 1
                 :: drop 5 (log (state_after "http://scope.test/" 0
                                             scope_steps)))
    by (vm_compute; reflexivity).
  split; [exact H1|]. split; [exact H2|]. split; [exact H3|].
  exact (proj2 (checks_answered_by_earlier_marks _ _ _ _ _ _ _ _ _ _
                  H1 H2 H3) _ _ _ eq_refl).
Defined.

(** X9 on [err.test] with a depth limit of 3. *)
Lemma depths_count_from_seed_witness :
  NewCrawler "http://err.test/" 3 (Float64.of_Z 2) 1000
  = inr (crawler_on "http://err.test/" 3)
  /\ 3 < Int64.max_int
  /\ run (clocked err_steps) (Start_spawn (crawler_on "http://err.test/" 3))
     = Some (state_after "http://err.test/" 3 err_steps)
  /\ Forall (fun p => 0 <= Depth p <= 3
                      /\ (Depth p = 0 ->
                          URL p = URL_String
                                    (baseURL (crawler_on "http://err.test/"
                                                         3))))
            (Pages (result (crawler
                      (state_after "http://err.test/" 3 err_steps)))).
Proof.
  assert (H1 : NewCrawler "http://err.test/" 3 (Float64.of_Z 2) 1000
               = inr (crawler_on "http://err.test/" 3))
    by (vm_compute; reflexivity).
  assert (H2 : 3 < Int64.max_int) by (vm_compute; reflexivity).
  assert (H3 : run (clocked err_steps)
                   (Start_spawn (crawler_on "http://err.test/" 3))
               = Some (state_after "http://err.test/" 3 err_steps))
    by (apply state_after_run; vm_compute; reflexivity).
  split; [exact H1|]. split; [exact H2|]. split; [exact H3|].
  exact (proj2 (proj2 (depths_count_from_seed _ _ _ _ _ _ _ H1 H2 H3))).
Defined.

(** X10 at 2000 requests a second, for which the period is zero. *)
Lemma nil_limiter_blocks_crawl_witness :
  NewCrawler "http://scope.test/" 3 (Float64.of_Z 2000) 1000 = inr hasty
  /\ tick_duration (Float64.of_Z 2000) <= 0
  /\ 0 <= 3
  /\ run [(0%nat, 1500)] (Start_spawn hasty)
     = Some (default (Start_spawn blank)
               (run [(0%nat, 1500)] (Start_spawn hasty)))
  /\ rateLimiter hasty = None
  /\ forall now ce ee, Start hasty [(0%nat, 1500)] now ce ee = None.
Proof.
  assert (H1 : NewCrawler "http://scope.test/" 3 (Float64.of_Z 2000) 1000
               = inr hasty)
    by (vm_compute; reflexivity).
  assert (H2 : tick_duration (Float64.of_Z 2000) <= 0)
    by (vm_compute; discriminate).
  assert (H3 : 0 <= 3) by lia.
  assert (H4 : run [(0%nat, 1500)] (Start_spawn hasty)
               = Some (default (Start_spawn blank)
                         (run [(0%nat, 1500)] (Start_spawn hasty))))
    by (apply ran_default; vm_compute; reflexivity).
  destruct (nil_limiter_blocks_crawl _ _ _ _ _ _ _ H1 H2 H3 H4)
    as (Hnil & _ & _ & _ & _ & _ & Hstart).
  split; [exact H1|]. split; [exact H2|]. split; [exact H3|].
  split; [exact H4|]. split; [exact Hnil | exact Hstart].
Defined.

(** X11 on [scope.test] with a depth limit of -1. *)
Lemma negative_limit_empty_report_witness :
  NewCrawler "http://scope.test/" (-1) (Float64.of_Z 2) 1000
  = inr (crawler_on "http://scope.test/" (-1))
  /\ -1 < 0
  /\ exists c' err,
       Start (crawler_on "http://scope.test/" (-1)) [(0%nat, 1500)] 9000
             None None
       = Some (c', err)
       /\ Pages (result c') = []
       /\ TotalPages (result c') = 0
       /\ EndTime (result c') = 9000
       /\ visited c' = ∅.
Proof.
  assert (H1 : NewCrawler "http://scope.test/" (-1) (Float64.of_Z 2) 1000
               = inr (crawler_on "http://scope.test/" (-1)))
    by (vm_compute; reflexivity).
  assert (H2 : -1 < 0) by lia.
  split; [exact H1|]. split; [exact H2|].
  exact (proj2 (negative_limit_empty_report _ _ _ _ _ H1 H2)
               1500 9000 None None).
Defined.

(** X12 for the seed [http://scope.test/] typed at time 1000. *)
Lemma main_crawl_keeps_moving_witness :
  main "http://scope.test/" 1000
  = inr (Start_spawn (crawler_on "http://scope.test/" 3))
  /\ run (clocked scope_steps)
         (Start_spawn (crawler_on "http://scope.test/" 3))
     = Some (state_after "http://scope.test/" 3 scope_steps)
  /\ rateLimiter (crawler (state_after "http://scope.test/" 3 scope_steps))
     = Some (500 * Time.Millisecond)
  /\ BaseURL (result (crawler
                (state_after "http://scope.test/" 3 scope_steps)))
     = "http://scope.test/"%string.
Proof.
  assert (H1 : main "http://scope.test/" 1000
               = inr (Start_spawn (crawler_on "http://scope.test/" 3)))
    by (vm_compute; reflexivity).
  assert (H2 : run (clocked scope_steps)
                   (Start_spawn (crawler_on "http://scope.test/" 3))
               = Some (state_after "http://scope.test/" 3 scope_steps))
    by (apply state_after_run; vm_compute; reflexivity).
  destruct (main_crawl_keeps_moving _ _ _ _ _ H1 H2) as (Hl & _ & Hb & _).
  split; [exact H1|]. split; [exact H2|]. split; [exact Hl | exact Hb].
Defined.
